(** * mlens-proto: the build script [build.py]

  A shallow embedding of the build-orchestration script and the proofs of
  its behaviour contract.  The script locates the protobuf compiler, runs
  it over the schema files of the package directory, writes the two
  aggregator files ([__init__.py] and [index.js]) and runs the stub tool.

  Modelling choices, all read off [build.py]:
  - Python [str] values are Rocq [string]s (byte strings).  The script only
    splits on ASCII separators and compares whole strings, and the
    lexicographic order of UTF-8 bytes is the order of code points, so the
    byte view agrees with Python's.
  - The process state the script touches is a record [World]:
    [os.environ], the working directory, [sys.path], the listing of the
    package directory [<output_dir>/mlens_proto], the text written to
    [sys.stderr] and the trace of [subprocess.run] calls.
  - [sys.exit] and raised exceptions are outcomes of a small state and
    error monad; [try/except/finally] are combinators of that monad.
  - Everything outside the script (the executable search, the external
    tools, the Python import system) is a variable of the section.  An
    import runs the body of the module in the process of the script: besides
    the module it yields, it can change [sys.path], write to [sys.stderr]
    and leave the byte code of the module in [__pycache__].
  - [print] only appends to standard output, which nothing reads back; it
    is left out of the state. *)

From Stdlib Require Import ZArith Ascii.
From stdpp Require Import base option list strings gmap sorting.

Local Open Scope Z_scope.

(** ** Python string primitives *)

Module Py.

(** The line feed character, ["\n"] in the source. *)
Definition nl : string := String (ascii_of_nat 10) "".

(** [s.startswith(p)] *)
Definition startswith (s p : string) : bool := String.prefix p s.

(** [s.endswith(p)] *)
Definition endswith (s p : string) : bool :=
  bool_decide (String.length p ≤ String.length s)%nat
  && String.eqb
       (String.substring (String.length s - String.length p)
                         (String.length p) s) p.

(** [s[:-n]] for a positive literal [n]: everything but the last [n]
    characters, the empty string when [s] is shorter. *)
Definition slice_to_neg (n : nat) (s : string) : string :=
  String.substring 0 (String.length s - n) s.

(** [s.split(c)] for a one-character separator: the pieces between the
    occurrences of [c]; never the empty list. *)
Fixpoint split (c : ascii) (s : string) : list string :=
  match s with
  | EmptyString => [""]
  | String a r =>
      if Ascii.eqb a c then "" :: split c r
      else match split c r with
           | h :: t => String a h :: t
           | [] => [String a ""]
           end
  end.

(** [sep.join(l)] *)
Definition join (sep : string) (l : list string) : string :=
  String.concat sep l.

(** [l[-1]] *)
Definition last_item {A} (l : list A) : option A := last l.

(** [os.path.basename(p)] on POSIX: what follows the last slash. *)
Definition basename (p : string) : string :=
  default "" (last_item (split "/" p)).

(** [os.path.join(a, b)] on POSIX for a relative, non-empty [b]. *)
Definition path_join (a b : string) : string :=
  if String.eqb a "" then b
  else if endswith a "/" then a +:+ b
  else a +:+ "/" +:+ b.

(** [sorted(set(l))]: the distinct elements of [l] in ascending order of
    Python's string comparison.  A set has no order of its own and the
    elements handed to [sorted] are pairwise different, so the result does
    not depend on the sorting algorithm. *)
Definition sorted_set (l : list string) : list string :=
  merge_sort String.le (remove_dups l).

(** [c in s] for a character [c]. *)
Fixpoint has_char (c : ascii) (s : string) : bool :=
  match s with
  | EmptyString => false
  | String a r => Ascii.eqb a c || has_char c r
  end.

End Py.

(** ** The state of the process *)

(** An entry of the package directory: a regular text file or a
    sub-directory (which cannot be opened as a file). *)
Inductive Node : Type :=
  | File (text : string)
  | Folder.

(** The listing of [<output_dir>/mlens_proto], in the order in which the
    operating system enumerates it ([os.listdir], [glob.glob]); that order is
    not sorted. *)
Abbreviation Dir := (list (string * Node)).

Record World : Type := mkWorld {
  environ : gmap string string;     (* os.environ *)
  cwd : string;                     (* os.getcwd() *)
  sys_path : list string;           (* sys.path *)
  pkg : Dir;                        (* the package directory *)
  stderr : list string;             (* texts written to sys.stderr *)
  spawned : list (list string);     (* argument vectors given to subprocess.run *)
}.

Definition set_cwd (c : string) (w : World) : World :=
  mkWorld (environ w) c (sys_path w) (pkg w) (stderr w) (spawned w).
Definition set_sys_path (p : list string) (w : World) : World :=
  mkWorld (environ w) (cwd w) p (pkg w) (stderr w) (spawned w).
Definition set_pkg (d : Dir) (w : World) : World :=
  mkWorld (environ w) (cwd w) (sys_path w) d (stderr w) (spawned w).
Definition add_stderr (s : string) (w : World) : World :=
  mkWorld (environ w) (cwd w) (sys_path w) (pkg w) (stderr w ++ [s]) (spawned w).
Definition add_spawned (argv : list string) (w : World) : World :=
  mkWorld (environ w) (cwd w) (sys_path w) (pkg w) (stderr w) (spawned w ++ [argv]).

(** ** Outcomes and the monad of the script *)

Inductive Exc : Type :=
  | CalledProcessError (returncode : Z)   (* subprocess.CalledProcessError *)
  | OtherException.                       (* any other subclass of Exception *)

(** How a piece of the script ends: it returns a value, it calls
    [sys.exit] (the exception [SystemExit], which [except Exception] does not
    catch), or it raises an exception. *)
Inductive Outcome (A : Type) : Type :=
  | Ret (a : A)
  | Exit (status : Z)
  | Raise (e : Exc).
Arguments Ret {A} a.
Arguments Exit {A} status.
Arguments Raise {A} e.

Definition M (A : Type) : Type := World → Outcome A * World.

Global Instance M_ret : MRet M := λ A a w, (Ret a, w).

Global Instance M_bind : MBind M := λ A B k m w,
  match m w with
  | (Ret a, w') => k a w'
  | (Exit c, w') => (Exit c, w')
  | (Raise e, w') => (Raise e, w')
  end.

(** [sys.exit(status)] *)
Definition sys_exit {A} (status : Z) : M A := λ w, (Exit status, w).

(** [raise] *)
Definition raise {A} (e : Exc) : M A := λ w, (Raise e, w).

(** [try: body  except <caught> as e: handler(e)] *)
Definition try_except {A} (body : M A) (caught : Exc → bool)
    (handler : Exc → M A) : M A := λ w,
  match body w with
  | (Raise e, w') => if caught e then handler e w' else (Raise e, w')
  | r => r
  end.

(** [try: body  finally: cleanup].  The cleanup runs on every outcome of the
    body; the body's outcome stands unless the cleanup itself does not
    return. *)
Definition try_finally {A} (body : M A) (cleanup : M unit) : M A := λ w,
  let '(r, w') := body w in
  match cleanup w' with
  | (Ret _, w'') => (r, w'')
  | (Exit c, w'') => (Exit c, w'')
  | (Raise e, w'') => (Raise e, w'')
  end.

(** [except subprocess.CalledProcessError] *)
Definition is_CalledProcessError (e : Exc) : bool :=
  match e with CalledProcessError _ => true | OtherException => false end.

(** [except Exception] *)
Definition is_Exception (e : Exc) : bool := true.

(** The exit status of the interpreter: 0 when the script runs to its end,
    the argument of [sys.exit], and 1 for an uncaught exception. *)
Definition exit_status {A} (r : Outcome A) : Z :=
  match r with
  | Ret _ => 0
  | Exit c => c
  | Raise _ => 1
  end.

(** ** Operations on the package directory *)

Fixpoint dir_lookup (name : string) (d : Dir) : option Node :=
  match d with
  | [] => None
  | (k, x) :: r => if String.eqb k name then Some x else dir_lookup name r
  end.

(** Set the text of the file [name]: in place when the entry exists, as a
    new entry at the end of the listing otherwise. *)
Fixpoint dir_put (name text : string) (d : Dir) : Dir :=
  match d with
  | [] => [(name, File text)]
  | (k, x) :: r =>
      if String.eqb k name then (k, File text) :: r
      else (k, x) :: dir_put name text r
  end.

(** The text of the file [name]; the empty text when there is none. *)
Definition dir_text (name : string) (d : Dir) : string :=
  match dir_lookup name d with
  | Some (File t) => t
  | _ => ""
  end.

(** Make the sub-directory [name]: a new entry at the end of the listing;
    nothing changes when an entry of that name exists. *)
Definition dir_mkdir (name : string) (d : Dir) : Dir :=
  match dir_lookup name d with
  | Some _ => d
  | None => d ++ [(name, Folder)]
  end.

(** The path by which the script names the entry [name] of the package
    directory: [f"{output_dir}/mlens_proto/{name}"]. *)
Definition pkg_path (output_dir name : string) : string :=
  output_dir +:+ "/mlens_proto/" +:+ name.

(** [open(path, "w")] on an entry of the package directory: the file is
    created or truncated at once; a directory cannot be opened. *)
Definition open_w (name : string) : M unit := λ w,
  match dir_lookup name (pkg w) with
  | Some Folder => (Raise OtherException, w)
  | _ => (Ret tt, set_pkg (dir_put name "" (pkg w)) w)
  end.

(** [f.write(text)] on the file opened as [name].  The script reads nothing
    back while the file is open and the [with] block closes (and so flushes)
    the file on every outcome, so the text is appended directly. *)
Definition f_write (name text : string) : M unit := λ w,
  (Ret tt, set_pkg (dir_put name (dir_text name (pkg w) +:+ text) (pkg w)) w).

(** [open(path, "r").read()] for a path returned by [glob]: the entry of the
    package directory that the path names. *)
Definition read_text (output_dir path : string) : M string := λ w,
  match list_find (λ e, pkg_path output_dir e.1 = path) (pkg w) with
  | Some (_, (_, File t)) => (Ret t, w)
  | _ => (Raise OtherException, w)
  end.

(** [fnmatch] of a name against the pattern [*<suffix>], the way [glob]
    applies it: [*] matches any characters, and a name that starts with a dot
    is skipped because the pattern does not. *)
Definition glob_match (suffix name : string) : bool :=
  negb (Py.startswith name ".") && Py.endswith name suffix.

(** [glob.glob(f"{output_dir}/mlens_proto/*<suffix>")]: the matching
    entries, as paths, in enumeration order. *)
Definition glob (output_dir suffix : string) : M (list string) := λ w,
  (Ret (pkg_path output_dir <$> filter (λ n, glob_match suffix n) (pkg w).*1), w).

(** [os.listdir(mlens_proto_dir)] *)
Definition listdir : M (list string) := λ w, (Ret (pkg w).*1, w).

(** ** Python modules as the initializer sees them *)

(** A member of a module: a class, with the name of the module that declares
    it ([cls.__module__]), or anything else. *)
Inductive PyObj : Type :=
  | PyClass (declaring_module : string)
  | PyOther.

Record PyModule : Type := mkModule {
  mod_name : string;                  (* module.__name__ *)
  mod_dict : gmap string PyObj;       (* the attributes of the module *)
}.

(** [inspect.isclass] *)
Definition isclass (o : PyObj) : bool :=
  match o with PyClass _ => true | PyOther => false end.

(** [inspect.getmembers(module, predicate)]: the (name, value) pairs whose
    value satisfies the predicate, sorted by name. *)
Definition getmembers (module : PyModule) (predicate : PyObj → bool)
    : list (string * PyObj) :=
  merge_sort (λ a b, String.le a.1 b.1)
             (filter (λ m, predicate m.2 = true) (map_to_list (mod_dict module))).

(** [m[1].__module__ == module.__name__] for a member [m] that is a class. *)
Definition declared_in (module : PyModule) (m : string * PyObj) : bool :=
  match m.2 with
  | PyClass dm => String.eqb dm (mod_name module)
  | PyOther => false
  end.

(** What an import does.  [importlib.import_module] finds the source of
    the module, compiles it and runs its body in the process of the script:
    the body can change [sys.path] and write warnings to [sys.stderr], and
    the import system can store the byte code in the directory [__pycache__]
    next to the source.  All of this happens whether or not the body runs to
    its end. *)
Record Imported : Type := mkImported {
  imp_module : option PyModule;   (* the module; [None] when the import raises *)
  imp_sys_path : list string;     (* [sys.path] as the import leaves it *)
  imp_stderr : list string;       (* the texts it writes to [sys.stderr] *)
  imp_cache : bool;               (* whether [__pycache__] is written *)
}.

(** ** The script *)

(** What the script asks of its host: the operating system, the external
    tools and the Python import system. *)
Record Host : Type := mkHost {
  (* [shutil.which(name)]: the executable found on the search path. *)
  which : string → option string;
  (* [os.path.exists(path)] for a path outside the package directory. *)
  path_exists : string → bool;
  (* An external process, run to its end: from the argument vector, the
      working directory and the package directory it gives the return code
      and the package directory it leaves; [None] when the process cannot
      be started ([OSError]). *)
  exec : list string → string → Dir → option (Z * Dir);
  (* [os.chdir(path)] seen from the directory [cwd]: the new working
      directory, [None] when the operating system refuses. *)
  chdir_target : string → string → option string;
  (* The import system: from [sys.path], the qualified module name and
      the source file of the module, what the import does. *)
  import_oracle : list string → string → option Node → Imported;
}.

Section Build.

Variable host : Host.

(** *** find_protoc *)

Definition protoc_missing : string :=
  "protobuf-compiler cannot be found. Please make sure that it is installed. "
  +:+ "                    Or set the PROTOC environment variable to the path of the protoc binary."
  +:+ Py.nl.

Definition stderr_write (s : string) : M unit := λ w, (Ret tt, add_stderr s w).

Definition find_protoc : M string := λ w,
  let protoc :=
    match environ w !! "PROTOC" with
    | Some p => if path_exists host p then Some p else which host "protoc"
    | None => which host "protoc"
    end in
  match protoc with
  | None => (stderr_write protoc_missing ;; sys_exit 1) w
  | Some p => (Ret p, w)
  end.

(** *** compile_protos *)

(** [subprocess.run(argv, check=True)] *)
Definition subprocess_run (argv : list string) : M unit := λ w,
  let w1 := add_spawned argv w in
  match exec host argv (cwd w) (pkg w) with
  | None => (Raise OtherException, w1)
  | Some (rc, d) =>
      if rc =? 0 then (Ret tt, set_pkg d w1)
      else (Raise (CalledProcessError rc), set_pkg d w1)
  end.

(** The per-file command of the Python loop. *)
Definition python_cmd (protoc output_dir proto_file : string) : list string :=
  [protoc;
   "--proto_path=" +:+ output_dir;
   "--mypy_out=" +:+ output_dir;
   "--python_out=" +:+ output_dir;
   proto_file].

(** The [for proto_file in proto_files] loop; it returns the list
    [protoc_cmd_npm] it has extended. *)
Fixpoint compile_each (protoc output_dir : string) (proto_files : list string)
    (protoc_cmd_npm : list string) : M (list string) :=
  match proto_files with
  | [] => mret protoc_cmd_npm
  | proto_file :: rest =>
      let protoc_cmd_npm := protoc_cmd_npm ++ [proto_file] in
      try_except (subprocess_run (python_cmd protoc output_dir proto_file))
                 is_CalledProcessError (λ _, sys_exit 1) ;;
      compile_each protoc output_dir rest protoc_cmd_npm
  end.

Definition compile_protos (output_dir : string) : M unit :=
  protoc ← find_protoc;
  proto_files ← glob output_dir ".proto";
  let protoc_cmd_npm :=
    [protoc; "--proto_path=.";
     "--js_out=import_style=commonjs,binary:" +:+ output_dir] in
  protoc_cmd_npm ← compile_each protoc output_dir proto_files protoc_cmd_npm;
  try_except (subprocess_run protoc_cmd_npm)
             is_CalledProcessError (λ _, sys_exit 1).

(** *** generate_init *)

Definition sys_path_insert0 (p : string) : M unit := λ w,
  (Ret tt, set_sys_path (p :: sys_path w) w).

(** [sys.path.pop(0)] *)
Definition sys_path_pop0 : M unit := λ w,
  match sys_path w with
  | [] => (Raise OtherException, w)
  | _ :: r => (Ret tt, set_sys_path r w)
  end.

(** The source file of the module [mlens_proto.<m>] is the entry [<m>.py]
    of the package directory. *)
Definition module_file (name : string) : string :=
  String.substring 12 (String.length name - 12) name +:+ ".py".

(** [importlib.import_module(name)]: the effects of the import take place,
    then the module is returned or the exception of the import is raised. *)
Definition import_module (name : string) : M PyModule := λ w,
  let r := import_oracle host (sys_path w) name
                         (dir_lookup (module_file name) (pkg w)) in
  let w' := mkWorld (environ w) (cwd w) (imp_sys_path r)
                    (if imp_cache r then dir_mkdir "__pycache__" (pkg w) else pkg w)
                    (stderr w ++ imp_stderr r) (spawned w) in
  match imp_module r with
  | Some m => (Ret m, w')
  | None => (Raise OtherException, w')
  end.

(** The list comprehension [classes]. *)
Definition class_names (module : PyModule) : list string :=
  fst <$> filter (λ m, declared_in module m = true) (getmembers module isclass).

Definition import_line (module_name cls : string) : string :=
  "from ." +:+ module_name +:+ " import " +:+ cls +:+ Py.nl.

(** [for cls in classes: f.write(...)] *)
Fixpoint write_imports (f module_name : string) (classes : list string) : M unit :=
  match classes with
  | [] => mret tt
  | cls :: rest =>
      f_write f (import_line module_name cls) ;;
      write_imports f module_name rest
  end.

(** [for filename in os.listdir(mlens_proto_dir)] *)
Fixpoint init_each (f : string) (filenames : list string) : M unit :=
  match filenames with
  | [] => mret tt
  | filename :: rest =>
      (if Py.endswith filename "_pb2.py" then
         let module_name := Py.slice_to_neg 3 filename in
         module ← import_module ("mlens_proto." +:+ module_name);
         write_imports f module_name (class_names module)
       else mret tt) ;;
      init_each f rest
  end.

(** The [try] block with its [except Exception] handler.  The aggregator
    is [os.path.join(mlens_proto_dir, "__init__.py")], the entry
    [__init__.py] of the package directory. *)
Definition init_guarded : M unit :=
  try_except
    (let f := "__init__.py" in
     open_w f ;;
     filenames ← listdir;
     init_each f filenames)
    is_Exception (λ _, sys_exit 1).

Definition generate_init (output_dir : string) : M unit :=
  sys_path_insert0 output_dir ;;
  try_finally init_guarded sys_path_pop0.

(** *** generate_index_js *)

Definition export_prefix : string := "goog.exportSymbol('proto.mlens.v1.".

(** [x[i]] of a list: [IndexError] when there is no such item. *)
Definition item {A} (o : option A) : M A := λ w,
  match o with
  | Some a => (Ret a, w)
  | None => (Raise OtherException, w)
  end.

(** [line.split("'")[1].split(".")[-1]] *)
Definition class_name_of (line : string) : M string :=
  quoted ← item (Py.split "'" line !! 1%nat);
  item (Py.last_item (Py.split "." quoted)).

(** [for line in content.split("\n")] *)
Fixpoint scan_lines (module_name : string) (lines : list string)
    (proto_classes : list (string * string)) : M (list (string * string)) :=
  match lines with
  | [] => mret proto_classes
  | line :: rest =>
      if Py.startswith line export_prefix then
        class_name ← class_name_of line;
        scan_lines module_name rest (proto_classes ++ [(class_name, module_name)])
      else scan_lines module_name rest proto_classes
  end.

(** [for proto_file in proto_files].  The source also computes
    [base_name], which it never uses. *)
Fixpoint scan_files (output_dir : string) (proto_files : list string)
    (proto_classes : list (string * string)) : M (list (string * string)) :=
  match proto_files with
  | [] => mret proto_classes
  | proto_file :: rest =>
      let filename := Py.basename proto_file in
      let module_name := Py.slice_to_neg 3 filename in
      content ← read_text output_dir proto_file;
      proto_classes ← scan_lines module_name (Py.split "010" content) proto_classes;
      scan_files output_dir rest proto_classes
  end.

(** [modules.setdefault(mod, []).append(cls)] on a dictionary, which keeps
    its keys in insertion order. *)
Fixpoint setdefault_append (mod' cls : string)
    (modules : list (string * list string)) : list (string * list string) :=
  match modules with
  | [] => [(mod', [cls])]
  | (k, v) :: r =>
      if String.eqb k mod' then (k, v ++ [cls]) :: r
      else (k, v) :: setdefault_append mod' cls r
  end.

Definition group_by_module (proto_classes : list (string * string))
    : list (string * list string) :=
  foldl (λ modules cm, setdefault_append cm.2 cm.1 modules) [] proto_classes.

(** The loop that preserves order but removes duplicates. *)
Fixpoint unique_loop (all_class_names : list string) (seen : gset string)
    (unique_classes : list string) : list string :=
  match all_class_names with
  | [] => unique_classes
  | c :: rest =>
      if decide (c ∈ seen) then unique_loop rest seen unique_classes
      else unique_loop rest ({[c]} ∪ seen) (unique_classes ++ [c])
  end.

Definition require_line (module_name : string) (classes : list string) : string :=
  "const { " +:+ Py.join ", " (Py.sorted_set classes)
  +:+ " } = require('./" +:+ module_name +:+ "');" +:+ Py.nl.

(** [for module_name, classes in modules.items()] *)
Fixpoint write_requires (f : string) (modules : list (string * list string)) : M unit :=
  match modules with
  | [] => mret tt
  | (module_name, classes) :: rest =>
      f_write f (require_line module_name classes) ;;
      write_requires f rest
  end.

Definition exports_line (unique_classes : list string) : string :=
  "  " +:+ Py.join ", " unique_classes +:+ Py.nl.

Definition generate_index_js (output_dir : string) : M unit :=
  try_except
    (proto_files ← glob output_dir "_pb.js";
     proto_classes ← scan_files output_dir proto_files [];
     let modules := group_by_module proto_classes in
     let f := "index.js" in
     open_w f ;;
     write_requires f modules ;;
     f_write f Py.nl ;;
     let all_class_names := proto_classes.*1 in
     let unique_classes := unique_loop all_class_names ∅ [] in
     f_write f ("module.exports = {" +:+ Py.nl) ;;
     f_write f (exports_line unique_classes) ;;
     f_write f ("};" +:+ Py.nl))
    is_Exception (λ _, sys_exit 1).

(** *** generate_stubs *)

Definition getcwd : M string := λ w, (Ret (cwd w), w).

Definition chdir (path : string) : M unit := λ w,
  match chdir_target host (cwd w) path with
  | Some c => (Ret tt, set_cwd c w)
  | None => (Raise OtherException, w)
  end.

Definition stubgen_cmd (stubgen : string) : list string :=
  [stubgen; "-o"; "."; "--no-import"; "-m"; "mlens_proto"].

Definition generate_stubs (output_dir : string) : M unit :=
  match which host "stubgen" with
  | None => sys_exit 1
  | Some stubgen =>
      cwd0 ← getcwd;
      chdir output_dir ;;
      try_except (subprocess_run (stubgen_cmd stubgen))
                 is_CalledProcessError (λ _, sys_exit 1) ;;
      chdir cwd0
  end.

(** *** main *)

(** [os.makedirs(output_dir)] creates the root above the package
    directory; nothing the state records changes. *)
Definition makedirs (path : string) : M unit := mret tt.

Definition main : M unit :=
  let output_dir := "." in
  (if path_exists host output_dir then mret tt else makedirs output_dir) ;;
  compile_protos output_dir ;;
  generate_init output_dir ;;
  generate_stubs output_dir ;;
  generate_index_js output_dir.

End Build.


(** ** Reference descriptions of what the stages compute *)

(** The text made of the given pieces, one after the other. *)
Definition text_of (pieces : list string) : string := foldr String.append "" pieces.

(** A generated Python module, by the suffix test of [generate_init]. *)
Definition is_py_module (name : string) : bool := Py.endswith name "_pb2.py".

(** A generated JavaScript module, by the pattern of [generate_index_js]. *)
Definition is_js_module (name : string) : bool := glob_match "_pb.js" name.

(** The entries of a listing that are generated Python modules. *)
Definition py_entries (d : Dir) : Dir := filter (λ e, is_py_module e.1) d.

(** The entries of a listing that are generated JavaScript modules. *)
Definition js_entries (d : Dir) : Dir := filter (λ e, is_js_module e.1) d.

(** What the import of the module of the entry [filename] does when
    [sys.path] is [path]. *)
Definition import_py (host : Host) (path : list string) (d : Dir)
    (filename : string) : Imported :=
  import_oracle host path ("mlens_proto." +:+ Py.slice_to_neg 3 filename)
                (dir_lookup filename d).

(** The module the import system yields for the entry [filename]. *)
Definition load_py (host : Host) (path : list string) (d : Dir)
    (filename : string) : option PyModule :=
  imp_module (import_py host path d filename).

(** The imports the initializer makes while it walks [filenames] with
    [sys.path] being [path] at the start: the generated modules in the order
    of the walk, each with what its import does, every import seeing
    [sys.path] as the one before left it; the walk ends with the first
    module that does not load. *)
Fixpoint init_loads (host : Host) (path : list string) (d : Dir)
    (filenames : list string) : list (string * Imported) :=
  match filenames with
  | [] => []
  | n :: rest =>
      if is_py_module n then
        let r := import_py host path d n in
        (n, r) :: match imp_module r with
                  | Some _ => init_loads host (imp_sys_path r) d rest
                  | None => []
                  end
      else init_loads host path d rest
  end.

(** The (module, class) pairs for which an import line is written after the
    import [x]. *)
Definition loaded_pairs (x : string * Imported) : list (string * string) :=
  match imp_module x.2 with
  | Some m => pair (Py.slice_to_neg 3 x.1) <$> class_names m
  | None => []
  end.

(** Whether every import of the walk gave a module. *)
Definition all_loaded (l : list (string * Imported)) : bool :=
  forallb (λ x, match imp_module x.2 with Some _ => true | None => false end) l.

(** The (module, class) pairs for which the initializer writes an import
    line while it walks [filenames], up to the first module that does not
    load, and whether every module loaded. *)
Definition init_pairs (host : Host) (path : list string) (d : Dir)
    (filenames : list string) : list (string * string) * bool :=
  let l := init_loads host path d filenames in
  (l ≫= loaded_pairs, all_loaded l).

(** [sys.path] as the imports [l] leave it, from [path]. *)
Definition path_after (path : list string) (l : list (string * Imported)) : list string :=
  foldl (λ _ x, imp_sys_path x.2) path l.

(** [sys.path] at the end of the walk. *)
Definition init_path (host : Host) (path : list string) (d : Dir)
    (filenames : list string) : list string :=
  path_after path (init_loads host path d filenames).

(** What the imports [l] write to [sys.stderr]. *)
Definition stderr_of (l : list (string * Imported)) : list string :=
  l ≫= λ x, imp_stderr x.2.

(** The package directory once the imports [l] are made: [__pycache__] is
    there as soon as one of them writes byte code. *)
Definition with_cache (l : list (string * Imported)) (d : Dir) : Dir :=
  if existsb (λ x, imp_cache x.2) l then dir_mkdir "__pycache__" d else d.

(** The import lines of a list of (module, class) pairs. *)
Definition import_lines (pairs : list (string * string)) : list string :=
  (λ p, import_line p.1 p.2) <$> pairs.

(** The schema files [compile_protos] discovers, as the paths it hands to
    the compiler, in enumeration order. *)
Definition proto_files (output_dir : string) (d : Dir) : list string :=
  pkg_path output_dir <$> filter (λ n, glob_match ".proto" n) d.*1.

(** The one command for JavaScript: every discovered file behind the fixed
    options. *)
Definition js_cmd (protoc output_dir : string) (files : list string) : list string :=
  protoc :: "--proto_path=." ::
  ("--js_out=import_style=commonjs,binary:" +:+ output_dir) :: files.

(** The commands run one after the other from the working directory [c], as
    long as each one starts and returns 0: the package directory they
    leave; [None] as soon as one of them does not. *)
Fixpoint run_all (host : Host) (c : string) (cmds : list (list string))
    (d : Dir) : option Dir :=
  match cmds with
  | [] => Some d
  | argv :: rest =>
      match exec host argv c d with
      | Some (rc, d') => if rc =? 0 then run_all host c rest d' else None
      | None => None
      end
  end.

(** What the search path gives when the override is not used. *)
Definition search_path_result (host : Host) (w : World) : Outcome string * World :=
  match which host "protoc" with
  | Some p => (Ret p, w)
  | None => (Exit 1, add_stderr protoc_missing w)
  end.

(** The symbol an export line names: [line.split("'")[1].split(".")[-1]],
    the empty string standing in for a line that has no such part. *)
Definition symbol_of (line : string) : string :=
  default "" (Py.split "'" line !! 1%nat ≫= λ quoted, Py.last_item (Py.split "." quoted)).

(** The symbols the text of a generated JavaScript module exports: one per
    line that starts with the export prefix, in the order of the lines,
    repetitions included. *)
Definition symbols_of (content : string) : list string :=
  symbol_of <$> filter (λ line, Py.startswith line export_prefix) (Py.split "010" content).

(** The names of the generated JavaScript modules, in enumeration order. *)
Definition js_names (d : Dir) : list string := filter (λ n, is_js_module n) d.*1.

(** What [generate_index_js] takes from the entry [n]: the module name it
    derives from the path of the entry and the symbols of its text; [None]
    when the entry cannot be read. *)
Definition js_module (output_dir : string) (d : Dir) (n : string)
    : option (string * list string) :=
  match dir_lookup n d with
  | Some (File t) =>
      Some (Py.slice_to_neg 3 (Py.basename (pkg_path output_dir n)), symbols_of t)
  | _ => None
  end.

(** The (symbol, module) pairs of a list of modules with their symbols. *)
Definition pairs_of (mods : list (string * list string)) : list (string * string) :=
  mods ≫= λ m, (λ c, (c, m.1)) <$> m.2.

(** The text of [index.js] for the (symbol, module) pairs collected. *)
Definition index_text (proto_classes : list (string * string)) : string :=
  text_of (((λ m, require_line m.1 m.2) <$> group_by_module proto_classes)
           ++ [Py.nl;
               "module.exports = {" +:+ Py.nl;
               exports_line (unique_loop proto_classes.*1 ∅ []);
               "};" +:+ Py.nl]).

(** A listing as a directory gives it: no name twice, no slash in a name. *)
Definition wf_dir (d : Dir) : Prop :=
  NoDup d.*1 ∧ Forall (λ n, Py.has_char "/" n = false) d.*1.

Definition is_file (x : Node) : bool :=
  match x with File _ => true | Folder => false end.

Definition node_text (x : Node) : string :=
  match x with File t => t | Folder => "" end.

(** Every generated JavaScript module is a regular file. *)
Definition js_readable (d : Dir) : Prop :=
  Forall (λ e, is_file e.2 = true) (js_entries d).

(** The generated JavaScript modules of a listing, in enumeration order:
    the name of each module (the file name without [.js]) and the symbols
    extracted from its text. *)
Definition js_modules (d : Dir) : list (string * list string) :=
  (λ e, (Py.slice_to_neg 3 e.1, symbols_of (node_text e.2))) <$> js_entries d.

(** The grouped require lines: one per module that has a symbol. *)
Definition require_section (mods : list (string * list string)) : list string :=
  (λ m, require_line m.1 m.2) <$> filter (λ m, m.2 ≠ []) mods.

(** The symbols of all the modules, module after module. *)
Definition all_symbols (mods : list (string * list string)) : list string :=
  mods ≫= snd.

(** Each distinct element once, at the place of its first occurrence. *)
Fixpoint dedup_first (l : list string) : list string :=
  match l with
  | [] => []
  | x :: r => x :: filter (λ y, y ≠ x) (dedup_first r)
  end.

(** The position of the first occurrence of [x] in [l]. *)
Definition first_index (x : string) (l : list string) : option nat :=
  fst <$> list_find (λ y, y = x) l.

(** The export list the claim describes when the modules are taken in the
    order of their file names rather than in enumeration order. *)
Definition exports_in_filename_order (d : Dir) : list string :=
  dedup_first (all_symbols (js_modules (merge_sort (λ a b, String.le a.1 b.1) d))).

(** The import lines written after the import [x]: one for each of the
    names in [classes], in that order; none when the module does not load. *)
Definition module_lines (x : string * Imported) : list string :=
  match imp_module x.2 with
  | Some m => import_line (Py.slice_to_neg 3 x.1) <$> class_names m
  | None => []
  end.

(** ** A concrete build, on which the script can be run *)

Definition demo_js_a : string :=
  "goog.exportSymbol('proto.mlens.v1.Foo', null, global);" +:+ Py.nl +:+
  "goog.exportSymbol('proto.mlens.v1.Bar', null, global);" +:+ Py.nl +:+
  "goog.object.extend(exports, proto.mlens.v1);" +:+ Py.nl +:+
  "goog.exportSymbol('proto.mlens.v1.Foo', null, global);".

Definition demo_js_b : string :=
  "goog.exportSymbol('proto.mlens.v1.Baz', null, global);" +:+ Py.nl +:+
  "goog.exportSymbol('proto.mlens.v1.Bar', null, global);" +:+ Py.nl.

(** A package directory that the operating system enumerates with [b]
    before [a]. *)
Definition demo_dir : Dir :=
  [("b.proto", File "message Baz {}");
   ("a.proto", File "message Foo {}");
   ("b_pb2.py", File "stale");
   ("a_pb2.py", File "stale");
   ("b_pb.js", File demo_js_b);
   ("a_pb.js", File demo_js_a)].

Definition demo_world (env : gmap string string) : World :=
  mkWorld env "/repo" ["/usr/lib/python3"] demo_dir [] [].

Definition demo_which (found : bool) (name : string) : option string :=
  if found then Some ("/usr/bin/" +:+ name) else None.

(** A tool that returns the code [rc argv].  When the code is 0 and the
    command is the per-file Python command, it writes the generated module
    of the schema file into the package directory. *)
Definition demo_exec (rc : list string → Z) (argv : list string) (c : string)
    (d : Dir) : option (Z * Dir) :=
  let code := rc argv in
  Some (code,
        if code =? 0 then
          match argv with
          | [_; _; _; _; f] =>
              dir_put (Py.slice_to_neg 6 (Py.basename f) +:+ "_pb2.py") "generated" d
          | _ => d
          end
        else d).

Definition demo_chdir (c path : string) : option string :=
  if Py.startswith path "/" then Some path
  else if String.eqb path "." then Some c
  else Some (c +:+ "/" +:+ path).

(** Every module that loads has the class [Foo] of its own, the class [Bar]
    taken from another module and a member that is not a class.  An import
    leaves [sys.path] alone and writes nothing to [sys.stderr]; the byte
    code of a source file goes to [__pycache__]. *)
Definition demo_import (loads : string → bool) (path : list string)
    (name : string) (src : option Node) : Imported :=
  match src with
  | Some (File _) =>
      mkImported
        (if loads name then
           Some (mkModule name
                   (<["Foo" := PyClass name]>
                      (<["Bar" := PyClass "mlens_proto.other_pb2"]>
                         (<["version" := PyOther]> ∅))))
         else None)
        path [] true
  | _ => mkImported None path [] false
  end.

Definition demo_host (found : bool) (rc : list string → Z)
    (loads : string → bool) : Host :=
  mkHost (demo_which found) (λ _, false) (demo_exec rc) demo_chdir
         (demo_import loads).

(** The host on which everything succeeds. *)
Definition good_host : Host := demo_host true (λ _, 0) (λ _, true).

(** The return code of a compiler that rejects [a.proto] when it is asked
    for Python output. *)
Definition rejects_a (argv : list string) : Z :=
  if bool_decide (argv !! 4%nat = Some "./mlens_proto/a.proto") then 1 else 0.

(** The return code of a stub tool that fails. *)
Definition stubgen_fails (argv : list string) : Z :=
  if bool_decide (argv !! 0%nat = Some "/usr/bin/stubgen") then 1 else 0.

(** A host on which no process can be started. *)
Definition no_exec_host : Host :=
  mkHost (demo_which true) (λ _, false) (λ _ _ _, None) demo_chdir
         (demo_import (λ _, true)).

(** A package directory without a schema file and without a generated
    Python module, whose one JavaScript module exports no symbol of the
    namespace. *)
Definition plain_dir : Dir :=
  [("util_pb.js", File ("goog.provide('util');" +:+ Py.nl));
   ("__init__.py", File "from .old_pb2 import Old")].

Definition plain_world : World :=
  mkWorld ∅ "/repo" ["/usr/lib/python3"] plain_dir [] [].

(** A host whose generated modules put a directory of their own at the
    front of [sys.path] when they are imported, and warn about it. *)
Definition plugin_import (path : list string) (name : string)
    (src : option Node) : Imported :=
  let r := demo_import (λ _, true) path name src in
  mkImported (imp_module r) ("/plugins" :: path)
             ["UserWarning: " +:+ name +:+ " extends sys.path" +:+ Py.nl]
             (imp_cache r).

Definition plugin_host : Host :=
  mkHost (demo_which true) (λ _, false) (demo_exec (λ _, 0)) demo_chdir
         plugin_import.
Example split_lines : Py.split "." "proto.mlens.v1.Foo" = ["proto"; "mlens"; "v1"; "Foo"].
Proof. reflexivity. Qed.

Example endswith_js : Py.endswith "a_pb.js" "_pb.js" = true.
Proof. reflexivity. Qed.

Example slice_js : Py.slice_to_neg 3 "a_pb.js" = "a_pb".
Proof. reflexivity. Qed.

Example basename_ex : Py.basename "./mlens_proto/a_pb.js" = "a_pb.js".
Proof. reflexivity. Qed.

Example sorted_set_ex : Py.sorted_set ["b"; "a"; "b"; "C"] = ["C"; "a"; "b"].
Proof. vm_compute. reflexivity. Qed.


(** ** Facts about the string primitives *)

Module PyFacts.

Lemma app_nil_l (s : string) : "" +:+ s = s.
Proof. reflexivity. Qed.

Lemma app_cons (a : ascii) (s t : string) : String a s +:+ t = String a (s +:+ t).
Proof. reflexivity. Qed.

Lemma app_nil_r (s : string) : s +:+ "" = s.
Proof. induction s as [|a s IH]; [done|]. by rewrite app_cons, IH. Qed.

Lemma app_assoc (s t u : string) : s +:+ (t +:+ u) = (s +:+ t) +:+ u.
Proof. induction s as [|a s IH]; [done|]. by rewrite !app_cons, IH. Qed.

Lemma length_app (s t : string) :
  String.length (s +:+ t) = (String.length s + String.length t)%nat.
Proof. induction s as [|a s IH]; [done|]. rewrite app_cons. simpl. by rewrite IH. Qed.

Lemma substring_0_0 (s : string) : String.substring 0 0 s = "".
Proof. by destruct s. Qed.

Lemma substring_all (s : string) : String.substring 0 (String.length s) s = s.
Proof. induction s as [|a s IH]; [done|]. simpl. by rewrite IH. Qed.

Lemma substring_app_l (x y : string) :
  String.substring 0 (String.length x) (x +:+ y) = x.
Proof.
  induction x as [|a x IH]; [apply substring_0_0|].
  rewrite app_cons. simpl. by rewrite IH.
Qed.

Lemma substring_app_r (x y : string) (n : nat) :
  String.substring (String.length x) n (x +:+ y) = String.substring 0 n y.
Proof. induction x as [|a x IH]; [done|]. rewrite app_cons. simpl. apply IH. Qed.

Lemma substring_split (s : string) (k : nat) :
  (k ≤ String.length s)%nat →
  s = String.substring 0 k s +:+ String.substring k (String.length s - k) s.
Proof.
  revert k. induction s as [|a s IH]; intros k Hk.
  - by destruct k.
  - destruct k as [|k]; simpl.
    + by rewrite substring_all.
    + rewrite app_cons. f_equal. apply IH. simpl in Hk. lia.
Qed.

Lemma endswith_app (x p : string) : Py.endswith (x +:+ p) p = true.
Proof.
  unfold Py.endswith. rewrite length_app.
  rewrite bool_decide_eq_true_2 by lia. simpl.
  replace (String.length x + String.length p - String.length p)%nat
    with (String.length x) by lia.
  rewrite substring_app_r, substring_all. apply String.eqb_refl.
Qed.

Lemma endswith_inv (s p : string) :
  Py.endswith s p = true → ∃ x, s = x +:+ p.
Proof.
  unfold Py.endswith. intros [Hlen Heq]%andb_prop.
  apply bool_decide_eq_true_1 in Hlen. apply String.eqb_eq in Heq.
  exists (String.substring 0 (String.length s - String.length p) s).
  pose proof (substring_split s (String.length s - String.length p)) as Hs.
  replace (String.length s - (String.length s - String.length p))%nat
    with (String.length p) in Hs by lia.
  rewrite Heq in Hs. apply Hs. lia.
Qed.

Lemma slice_to_neg_app (x p : string) :
  Py.slice_to_neg (String.length p) (x +:+ p) = x.
Proof.
  unfold Py.slice_to_neg. rewrite length_app.
  replace (String.length x + String.length p - String.length p)%nat
    with (String.length x) by lia.
  apply substring_app_l.
Qed.

Lemma split_nonempty (c : ascii) (s : string) : Py.split c s ≠ [].
Proof.
  induction s as [|a s IH]; simpl; [done|].
  destruct (Ascii.eqb a c); [done|]. by destruct (Py.split c s).
Qed.

Lemma split_no_sep (c : ascii) (s : string) :
  Py.has_char c s = false → Py.split c s = [s].
Proof.
  induction s as [|a s IH]; simpl; [done|].
  intros [Ha Hs]%orb_false_elim. rewrite Ha, (IH Hs). done.
Qed.

Lemma split_app_sep (c : ascii) (x y : string) :
  Py.split c (x +:+ String c y) = Py.split c x ++ Py.split c y.
Proof.
  induction x as [|a x IH].
  - rewrite app_nil_l. simpl. by rewrite Ascii.eqb_refl.
  - rewrite app_cons. simpl. rewrite IH.
    destruct (Ascii.eqb a c); [done|].
    pose proof (split_nonempty c x). by destruct (Py.split c x).
Qed.

Lemma last_split_app_sep (c : ascii) (x y : string) :
  Py.has_char c y = false →
  Py.last_item (Py.split c (x +:+ String c y)) = Some y.
Proof.
  intros Hy. unfold Py.last_item.
  rewrite split_app_sep, (split_no_sep c y Hy), last_snoc. done.
Qed.

Lemma basename_pkg_path (output_dir name : string) :
  Py.has_char "/" name = false →
  Py.basename (pkg_path output_dir name) = name.
Proof.
  intros Hn. unfold Py.basename, pkg_path.
  change "/mlens_proto/" with ("/mlens_proto" +:+ "/").
  rewrite <- (app_assoc "/mlens_proto"), app_assoc.
  change ("/" +:+ name) with (String "/" name).
  by rewrite last_split_app_sep.
Qed.

Lemma pkg_path_inj (output_dir : string) : Inj (=) (=) (pkg_path output_dir).
Proof.
  intros n1 n2 H. unfold pkg_path in H.
  by apply (inj (String.app output_dir)), (inj (String.app "/mlens_proto/")) in H.
Qed.

Lemma module_file_pb2 (filename : string) :
  Py.endswith filename "_pb2.py" = true →
  module_file ("mlens_proto." +:+ Py.slice_to_neg 3 filename) = filename.
Proof.
  intros [x ->]%endswith_inv.
  change "_pb2.py" with ("_pb2" +:+ ".py").
  rewrite app_assoc, (slice_to_neg_app _ ".py").
  unfold module_file. rewrite length_app.
  change (String.length "mlens_proto.") with 12%nat.
  rewrite (substring_app_r "mlens_proto.").
  replace (12 + String.length (x +:+ "_pb2") - 12)%nat
    with (String.length (x +:+ "_pb2")) by lia.
  by rewrite substring_all.
Qed.

Lemma slice_js_inj (n1 n2 : string) :
  Py.endswith n1 "_pb.js" = true → Py.endswith n2 "_pb.js" = true →
  Py.slice_to_neg 3 n1 = Py.slice_to_neg 3 n2 → n1 = n2.
Proof.
  intros [x1 ->]%endswith_inv [x2 ->]%endswith_inv.
  change "_pb.js" with ("_pb" +:+ ".js").
  rewrite !app_assoc, !(slice_to_neg_app _ ".js"). by intros ->.
Qed.

Lemma slice_py_inj (n1 n2 : string) :
  Py.endswith n1 "_pb2.py" = true → Py.endswith n2 "_pb2.py" = true →
  Py.slice_to_neg 3 n1 = Py.slice_to_neg 3 n2 → n1 = n2.
Proof.
  intros [x1 ->]%endswith_inv [x2 ->]%endswith_inv.
  change "_pb2.py" with ("_pb2" +:+ ".py").
  rewrite !app_assoc, !(slice_to_neg_app _ ".py"). by intros ->.
Qed.

End PyFacts.
(** ** Facts about the package directory *)

Section DirFacts.

Implicit Types (d : Dir) (n k t : string).

Lemma dir_lookup_put_eq n t d : dir_lookup n (dir_put n t d) = Some (File t).
Proof.
  induction d as [|[k x] d IH]; simpl.
  - by rewrite String.eqb_refl.
  - destruct (String.eqb k n) eqn:E; simpl; by rewrite E.
Qed.

Lemma dir_lookup_put_ne n k t d : n ≠ k → dir_lookup n (dir_put k t d) = dir_lookup n d.
Proof.
  intros Hne. induction d as [|[k' x] d IH]; simpl.
  - by rewrite (proj2 (String.eqb_neq k n)).
  - destruct (String.eqb k' k) eqn:E; simpl.
    + apply String.eqb_eq in E as ->.
      by rewrite (proj2 (String.eqb_neq k n)).
    + by rewrite IH.
Qed.

Lemma dir_text_put_eq n t d : dir_text n (dir_put n t d) = t.
Proof. unfold dir_text. by rewrite dir_lookup_put_eq. Qed.

Lemma dir_put_put n t t' d : dir_put n t' (dir_put n t d) = dir_put n t' d.
Proof.
  induction d as [|[k x] d IH]; simpl.
  - by rewrite String.eqb_refl.
  - destruct (String.eqb k n) eqn:E; simpl; rewrite E; [done|by rewrite IH].
Qed.

Lemma dir_put_id n t d : dir_lookup n d = Some (File t) → dir_put n t d = d.
Proof.
  induction d as [|[k x] d IH]; simpl; [done|].
  destruct (String.eqb k n) eqn:E.
  - by intros [= ->].
  - intros H. by rewrite IH.
Qed.

(** Writing a file leaves the entries selected by a filter alone when the
    name of the file does not pass the filter. *)
Lemma filter_dir_put (P : string → bool) n t d :
  P n = false →
  filter (λ e, P e.1) (dir_put n t d) = filter (λ e, P e.1) d.
Proof.
  intros Hn. induction d as [|[k x] d IH]; simpl.
  - rewrite filter_cons_False; [done|]. simpl. rewrite Hn. by intros [].
  - destruct (String.eqb k n) eqn:E.
    + apply String.eqb_eq in E as ->.
      rewrite !filter_cons_False; [done| |]; simpl; rewrite Hn; by intros [].
    + rewrite !filter_cons. simpl. by rewrite IH.
Qed.

(** The first entry of a name is found among the entries that pass a filter
    as soon as the name passes it. *)
Lemma dir_lookup_filter (P : string → bool) n d :
  P n = true → dir_lookup n (filter (λ e, P e.1) d) = dir_lookup n d.
Proof.
  intros Hn. induction d as [|[k x] d IH]; simpl; [done|].
  rewrite filter_cons. simpl.
  destruct (String.eqb k n) eqn:E.
  - apply String.eqb_eq in E as ->. rewrite decide_True by (by rewrite Hn).
    simpl. by rewrite String.eqb_refl.
  - case_decide; simpl; [by rewrite E|done].
Qed.

Lemma dir_names_put_in n t d x :
  dir_lookup n d = Some x → (dir_put n t d).*1 = d.*1.
Proof.
  induction d as [|[k y] d IH]; simpl; [done|].
  destruct (String.eqb k n) eqn:E; [done|].
  intros H. rewrite !fmap_cons. f_equal. by apply IH.
Qed.

Lemma dir_names_put_new n t d :
  dir_lookup n d = None → (dir_put n t d).*1 = d.*1 ++ [n].
Proof.
  induction d as [|[k y] d IH]; simpl; [done|].
  destruct (String.eqb k n) eqn:E; [done|].
  intros H. rewrite !fmap_cons. simpl. f_equal. by apply IH.
Qed.

Lemma dir_lookup_app n d d' :
  dir_lookup n (d ++ d') =
  match dir_lookup n d with Some x => Some x | None => dir_lookup n d' end.
Proof.
  induction d as [|[k x] d IH]; simpl; [done|].
  by destruct (String.eqb k n).
Qed.

(** Making a directory leaves every entry that exists as it is. *)
Lemma dir_lookup_mkdir_some n k d x :
  dir_lookup n d = Some x → dir_lookup n (dir_mkdir k d) = Some x.
Proof.
  intros H. unfold dir_mkdir. destruct (dir_lookup k d); [done|].
  by rewrite dir_lookup_app, H.
Qed.

Lemma dir_lookup_mkdir_ne n k d :
  n ≠ k → dir_lookup n (dir_mkdir k d) = dir_lookup n d.
Proof.
  intros Hne. unfold dir_mkdir. destruct (dir_lookup k d); [done|].
  rewrite dir_lookup_app. destruct (dir_lookup n d); [done|]. simpl.
  by rewrite (proj2 (String.eqb_neq k n)).
Qed.

Lemma dir_lookup_mkdir_eq k d : is_Some (dir_lookup k (dir_mkdir k d)).
Proof.
  unfold dir_mkdir. destruct (dir_lookup k d) as [x|] eqn:E; [by rewrite E|].
  rewrite dir_lookup_app, E. simpl. by rewrite String.eqb_refl.
Qed.

Lemma dir_mkdir_mkdir k d : dir_mkdir k (dir_mkdir k d) = dir_mkdir k d.
Proof.
  destruct (dir_lookup_mkdir_eq k d) as [x Hx].
  unfold dir_mkdir at 1. by rewrite Hx.
Qed.

Lemma dir_put_app_in n t d d' x :
  dir_lookup n d = Some x → dir_put n t (d ++ d') = dir_put n t d ++ d'.
Proof.
  induction d as [|[k y] d IH]; simpl; [done|].
  destruct (String.eqb k n); [done|]. intros H. by rewrite IH.
Qed.

(** Writing a file that exists and making a directory of another name do
    not depend on their order. *)
Lemma dir_put_mkdir n k t d x :
  dir_lookup n d = Some x → n ≠ k →
  dir_put n t (dir_mkdir k d) = dir_mkdir k (dir_put n t d).
Proof.
  intros Hn Hne. unfold dir_mkdir.
  rewrite (dir_lookup_put_ne k n) by done.
  destruct (dir_lookup k d); [done|]. by rewrite (dir_put_app_in _ _ _ _ _ Hn).
Qed.


End DirFacts.
(** ** Facts about the monad and the world *)

Lemma text_of_app (a b : list string) : text_of (a ++ b) = text_of a +:+ text_of b.
Proof.
  induction a as [|x a IH]; [done|].
  simpl. by rewrite IH, PyFacts.app_assoc.
Qed.

Lemma set_sys_path_id (w : World) : set_sys_path (sys_path w) w = w.
Proof. by destruct w. Qed.

Lemma set_pkg_id (w : World) : set_pkg (pkg w) w = w.
Proof. by destruct w. Qed.

Lemma set_cwd_id (w : World) : set_cwd (cwd w) w = w.
Proof. by destruct w. Qed.

Lemma bind_eval {A B} (m : M A) (k : A → M B) (w : World) :
  (m ≫= k) w =
  match m w with
  | (Ret a, w') => k a w'
  | (Exit c, w') => (Exit c, w')
  | (Raise e, w') => (Raise e, w')
  end.
Proof. reflexivity. Qed.

Lemma ret_eval {A} (a : A) (w : World) : (mret a : M A) w = (Ret a, w).
Proof. reflexivity. Qed.

(** ** The initializer of the Python package *)

Section InitFacts.

Variable host : Host.

Lemma init_not_py_module : is_py_module "__init__.py" = false.
Proof. reflexivity. Qed.

Lemma cache_not_py_module : is_py_module "__pycache__" = false.
Proof. reflexivity. Qed.

Lemma py_module_not_init (n : string) : is_py_module n = true → n ≠ "__init__.py".
Proof. intros H ->. by rewrite init_not_py_module in H. Qed.

Lemma py_module_not_cache (n : string) : is_py_module n = true → n ≠ "__pycache__".
Proof. intros H ->. by rewrite cache_not_py_module in H. Qed.

Lemma f_write_eval (f text t0 : string) (w : World) :
  dir_lookup f (pkg w) = Some (File t0) →
  f_write f text w = (Ret tt, set_pkg (dir_put f (t0 +:+ text) (pkg w)) w).
Proof. intros H. unfold f_write, dir_text. by rewrite H. Qed.

Lemma write_imports_eval (f mn : string) (classes : list string) (w : World) (t0 : string) :
  dir_lookup f (pkg w) = Some (File t0) →
  write_imports f mn classes w =
  (Ret tt, set_pkg (dir_put f (t0 +:+ text_of (import_line mn <$> classes)) (pkg w)) w).
Proof.
  revert w t0. induction classes as [|c classes IH]; intros w t0 Hf.
  - simpl. rewrite ret_eval, PyFacts.app_nil_r, (dir_put_id _ _ _ Hf).
    by rewrite set_pkg_id.
  - simpl. rewrite bind_eval, (f_write_eval _ _ _ _ Hf).
    rewrite (IH _ (t0 +:+ import_line mn c)) by apply dir_lookup_put_eq.
    simpl. by rewrite dir_put_put, PyFacts.app_assoc.
Qed.

(** The imports of the walk look at the sources of the generated modules
    only. *)
Lemma init_loads_ext (path : list string) (d d' : Dir) (names : list string) :
  (∀ n, n ∈ names → is_py_module n = true → dir_lookup n d = dir_lookup n d') →
  init_loads host path d names = init_loads host path d' names.
Proof.
  revert path. induction names as [|n names IH]; intros path H; [done|].
  simpl. destruct (is_py_module n) eqn:E.
  - unfold import_py. rewrite (H n) by (done || by left).
    destruct (imp_module _); [|done]. f_equal. apply IH.
    intros k Hk. apply H. by right.
  - apply IH. intros k Hk. apply H. by right.
Qed.

Lemma init_loads_put (path : list string) (t : string) (d : Dir) (names : list string) :
  init_loads host path (dir_put "__init__.py" t d) names = init_loads host path d names.
Proof.
  apply init_loads_ext. intros n _ Hn.
  by rewrite dir_lookup_put_ne by by apply py_module_not_init.
Qed.

Lemma init_loads_mkdir (path : list string) (d : Dir) (names : list string) :
  init_loads host path (dir_mkdir "__pycache__" d) names = init_loads host path d names.
Proof.
  apply init_loads_ext. intros n _ Hn.
  by rewrite dir_lookup_mkdir_ne by by apply py_module_not_cache.
Qed.

(** The walk skips the names that are no generated modules. *)
Lemma init_loads_filter (path : list string) (d : Dir) (names : list string) :
  init_loads host path d names
  = init_loads host path d (filter (λ n, is_py_module n) names).
Proof.
  revert path. induction names as [|n names IH]; intros path; [done|].
  rewrite filter_cons. simpl. destruct (is_py_module n) eqn:E.
  - rewrite decide_True by done. simpl. rewrite E.
    destruct (imp_module _); [|done]. by rewrite IH.
  - rewrite decide_False by (by intros []). apply IH.
Qed.

Lemma with_cache_lookup (l : list (string * Imported)) (d : Dir) (n : string) (x : Node) :
  dir_lookup n d = Some x → dir_lookup n (with_cache l d) = Some x.
Proof.
  intros H. unfold with_cache. destruct (existsb _ l); [|done].
  by apply dir_lookup_mkdir_some.
Qed.

Lemma with_cache_text (l : list (string * Imported)) (n t : string) (d : Dir) :
  dir_text n (with_cache l (dir_put n t d)) = t.
Proof.
  unfold dir_text. by rewrite (with_cache_lookup _ _ _ (File t)) by apply dir_lookup_put_eq.
Qed.

Lemma with_cache_lookup_ne (l : list (string * Imported)) (d : Dir) (n : string) :
  n ≠ "__pycache__" → dir_lookup n (with_cache l d) = dir_lookup n d.
Proof.
  intros H. unfold with_cache. destruct (existsb _ l); [|done].
  by apply dir_lookup_mkdir_ne.
Qed.

(** The loop of the initializer, evaluated: the imports of the walk take
    place one after the other and the lines of the modules that load are
    appended to the aggregator. *)
Lemma init_each_eval (names : list string) (w : World) (t0 : string) :
  dir_lookup "__init__.py" (pkg w) = Some (File t0) →
  init_each host "__init__.py" names w =
  let l := init_loads host (sys_path w) (pkg w) names in
  (if all_loaded l then Ret tt else Raise OtherException,
   mkWorld (environ w) (cwd w) (path_after (sys_path w) l)
     (with_cache l
        (dir_put "__init__.py" (t0 +:+ text_of (import_lines (l ≫= loaded_pairs)))
                 (pkg w)))
     (stderr w ++ stderr_of l) (spawned w)).
Proof.
  revert w t0. induction names as [|n names IH]; intros w t0 Hf.
  - simpl. rewrite ret_eval. unfold with_cache, path_after, stderr_of. simpl.
    rewrite PyFacts.app_nil_r, (dir_put_id _ _ _ Hf), app_nil_r. by destruct w.
  - simpl init_each. rewrite bind_eval. fold (is_py_module n). simpl init_loads.
    destruct (is_py_module n) eqn:E.
    + rewrite bind_eval. unfold import_module.
      rewrite (PyFacts.module_file_pb2 n E). fold (import_py host (sys_path w) (pkg w) n).
      set (r := import_py host (sys_path w) (pkg w) n).
      set (D := if imp_cache r then dir_mkdir "__pycache__" (pkg w) else pkg w).
      assert (dir_lookup "__init__.py" D = Some (File t0)) as HD.
      { unfold D. destruct (imp_cache r); [|done]. by apply dir_lookup_mkdir_some. }
      cbv zeta. destruct (imp_module r) as [m|] eqn:Hm.
      * rewrite (write_imports_eval _ _ _ _ t0) by done. cbn [pkg set_pkg].
        rewrite (IH _ (t0 +:+ text_of (import_line (Py.slice_to_neg 3 n) <$> class_names m)))
          by apply dir_lookup_put_eq.
        cbn [pkg set_pkg sys_path environ cwd stderr spawned]. cbv zeta.
        rewrite init_loads_put.
        assert (init_loads host (imp_sys_path r) D names
                = init_loads host (imp_sys_path r) (pkg w) names) as ->.
        { unfold D. destruct (imp_cache r); [|done]. apply init_loads_mkdir. }
        set (l := init_loads host (imp_sys_path r) (pkg w) names).
        rewrite dir_put_put. f_equal.
        { simpl. by rewrite Hm. }
        f_equal.
        -- assert (((n, r) :: l) ≫= loaded_pairs
                   = (pair (Py.slice_to_neg 3 n) <$> class_names m) ++ l ≫= loaded_pairs)
             as -> by (rewrite bind_cons; unfold loaded_pairs at 1; simpl; by rewrite Hm).
           unfold with_cache, D. cbn [snd fst existsb]. unfold import_lines.
           rewrite fmap_app, text_of_app, <- list_fmap_compose, PyFacts.app_assoc.
           change ((λ p : string * string, import_line p.1 p.2) ∘ pair (Py.slice_to_neg 3 n))
             with (import_line (Py.slice_to_neg 3 n)).
           destruct (imp_cache r); cbn [orb]; [|done].
           rewrite (dir_put_mkdir _ _ _ _ _ Hf) by done.
           destruct (existsb _ l); [|done]. apply dir_mkdir_mkdir.
        -- unfold stderr_of. rewrite bind_cons. simpl. by rewrite (assoc_L (++)).
      * simpl. rewrite Hm. f_equal. f_equal.
        -- unfold with_cache. simpl. rewrite orb_false_r. unfold loaded_pairs. simpl.
           rewrite Hm. simpl. rewrite PyFacts.app_nil_r, (dir_put_id _ _ _ Hf). done.
        -- unfold stderr_of. simpl. by rewrite app_nil_r.
    + rewrite ret_eval. by apply IH.
Qed.

Lemma py_names_put_init (t : string) (d : Dir) :
  filter (λ n, is_py_module n) (dir_put "__init__.py" t d).*1
  = filter (λ n, is_py_module n) d.*1.
Proof.
  assert (∀ e : Dir, filter (λ n, is_py_module n) e.*1
                     = (filter (λ x, is_py_module x.1) e).*1) as Hn.
  { induction e as [|[k x] e IH]; [done|].
    rewrite fmap_cons, !filter_cons. simpl.
    destruct (decide (is_py_module k)); [rewrite fmap_cons|]; by rewrite IH. }
  by rewrite !Hn, (filter_dir_put is_py_module) by apply init_not_py_module.
Qed.

(** The walk over the listing is the same once [__init__.py] is in it. *)
Lemma init_loads_names_put (path : list string) (t : string) (d : Dir) :
  init_loads host path d (dir_put "__init__.py" t d).*1
  = init_loads host path d d.*1.
Proof.
  rewrite init_loads_filter, py_names_put_init. symmetry. apply init_loads_filter.
Qed.

(** The guarded block, evaluated. *)
Lemma init_guarded_eval (w : World) :
  dir_lookup "__init__.py" (pkg w) ≠ Some Folder →
  init_guarded host w =
  let l := init_loads host (sys_path w) (pkg w) (pkg w).*1 in
  (if all_loaded l then Ret tt else Exit 1,
   mkWorld (environ w) (cwd w) (path_after (sys_path w) l)
     (with_cache l
        (dir_put "__init__.py" (text_of (import_lines (l ≫= loaded_pairs))) (pkg w)))
     (stderr w ++ stderr_of l) (spawned w)).
Proof.
  intros Hf. unfold init_guarded, try_except.
  rewrite bind_eval. unfold open_w at 1.
  destruct (dir_lookup "__init__.py" (pkg w)) as [[t|]|] eqn:Hl; [|done|].
  all: rewrite bind_eval; unfold listdir at 1;
    rewrite (init_each_eval _ _ "") by apply dir_lookup_put_eq;
    cbn [pkg set_pkg sys_path environ cwd stderr spawned]; cbv zeta;
    rewrite init_loads_put, init_loads_names_put, dir_put_put, PyFacts.app_nil_l;
    by destruct (all_loaded _).
Qed.

Lemma init_guarded_folder (w : World) :
  dir_lookup "__init__.py" (pkg w) = Some Folder →
  init_guarded host w = (Exit 1, w).
Proof.
  intros Hf. unfold init_guarded, try_except.
  rewrite bind_eval. unfold open_w at 1. by rewrite Hf.
Qed.

(** The whole stage, evaluated: the walk starts with the output directory at
    the front of [sys.path], and the entry that is at the front at the end
    is removed. *)
Lemma generate_init_eval (output_dir : string) (w : World) :
  dir_lookup "__init__.py" (pkg w) ≠ Some Folder →
  generate_init host output_dir w =
  let l := init_loads host (output_dir :: sys_path w) (pkg w) (pkg w).*1 in
  let p := path_after (output_dir :: sys_path w) l in
  (match p with
   | [] => Raise OtherException
   | _ :: _ => if all_loaded l then Ret tt else Exit 1
   end,
   mkWorld (environ w) (cwd w) (tail p)
     (with_cache l
        (dir_put "__init__.py" (text_of (import_lines (l ≫= loaded_pairs))) (pkg w)))
     (stderr w ++ stderr_of l) (spawned w)).
Proof.
  intros Hf. unfold generate_init. rewrite bind_eval.
  unfold sys_path_insert0 at 1. unfold try_finally.
  rewrite init_guarded_eval by done.
  cbn [pkg set_sys_path sys_path environ cwd stderr spawned]. cbv zeta.
  unfold sys_path_pop0. cbn [sys_path].
  destruct (path_after _ _) as [|q p]; [done|].
  by destruct (all_loaded _).
Qed.

Lemma generate_init_folder (output_dir : string) (w : World) :
  dir_lookup "__init__.py" (pkg w) = Some Folder →
  generate_init host output_dir w = (Exit 1, w).
Proof.
  intros Hf. unfold generate_init. rewrite bind_eval.
  unfold sys_path_insert0 at 1. unfold try_finally.
  rewrite init_guarded_folder by done. simpl. by destruct w.
Qed.

Lemma elem_of_dir_put_names (k f t : string) (d : Dir) :
  k ∈ (dir_put f t d).*1 ↔ k ∈ d.*1 ∨ k = f.
Proof.
  destruct (dir_lookup f d) as [x|] eqn:Hl.
  - rewrite (dir_names_put_in _ _ _ _ Hl). split; [auto|].
    intros [?| ->]; [done|].
    clear -Hl. induction d as [|[k y] d IH]; simpl in *; [done|].
    destruct (String.eqb k f) eqn:E.
    + apply String.eqb_eq in E as ->. left.
    + right. by apply IH.
  - rewrite (dir_names_put_new _ _ _ Hl). rewrite elem_of_app, list_elem_of_singleton. done.
Qed.

Lemma class_names_spec (m : PyModule) (cls : string) :
  cls ∈ class_names m ↔ mod_dict m !! cls = Some (PyClass (mod_name m)).
Proof.
  unfold class_names, getmembers. rewrite list_elem_of_fmap. split.
  - intros [[c o] [-> [Hd Hin]%list_elem_of_filter]]. simpl.
    rewrite merge_sort_Permutation in Hin.
    apply list_elem_of_filter in Hin as [_ Hin].
    apply elem_of_map_to_list in Hin.
    unfold declared_in in Hd. simpl in Hd.
    destruct o as [dm|]; [|done]. by apply String.eqb_eq in Hd as ->.
  - intros Hl. exists (cls, PyClass (mod_name m)). split; [done|].
    apply list_elem_of_filter. split.
    + unfold declared_in. simpl. apply String.eqb_refl.
    + rewrite merge_sort_Permutation. apply list_elem_of_filter. split; [done|].
      by apply elem_of_map_to_list.
Qed.

End InitFacts.
(** ** The compiler driver *)

Section CompileFacts.

Variable host : Host.


Lemma subprocess_run_eval (argv : list string) (w : World) :
  subprocess_run host argv w =
  match exec host argv (cwd w) (pkg w) with
  | None => (Raise OtherException, add_spawned argv w)
  | Some (rc, d) =>
      (if rc =? 0 then Ret tt else Raise (CalledProcessError rc),
       set_pkg d (add_spawned argv w))
  end.
Proof.
  unfold subprocess_run. destruct (exec host argv (cwd w) (pkg w)) as [[rc d]|]; [|done].
  by destruct (rc =? 0).
Qed.

(** The Python loop when every command returns 0. *)
Lemma compile_each_ok (protoc output_dir : string) (files cmd : list string)
    (w : World) (d' : Dir) :
  run_all host (cwd w) (python_cmd protoc output_dir <$> files) (pkg w) = Some d' →
  compile_each host protoc output_dir files cmd w =
  (Ret (cmd ++ files),
   mkWorld (environ w) (cwd w) (sys_path w) d' (stderr w)
           (spawned w ++ (python_cmd protoc output_dir <$> files))).
Proof.
  revert cmd w. induction files as [|f files IH]; intros cmd w Hrun.
  - simpl in *. injection Hrun as <-. rewrite ret_eval, !app_nil_r. by destruct w.
  - simpl in Hrun. simpl compile_each. rewrite bind_eval. unfold try_except.
    rewrite subprocess_run_eval.
    destruct (exec host _ (cwd w) (pkg w)) as [[rc d]|]; [|done].
    destruct (rc =? 0) eqn:Hrc; [|done].
    rewrite (IH _ (set_pkg d (add_spawned (python_cmd protoc output_dir f) w)) Hrun). simpl.
    by rewrite <- !(assoc_L (++)).
Qed.

(** The Python loop when the command of one file returns a non-zero code
    after the commands before it returned 0. *)
Lemma compile_each_fail (protoc output_dir : string) (l1 l2 cmd : list string)
    (f : string) (w : World) (d1 d2 : Dir) (rc : Z) :
  run_all host (cwd w) (python_cmd protoc output_dir <$> l1) (pkg w) = Some d1 →
  exec host (python_cmd protoc output_dir f) (cwd w) d1 = Some (rc, d2) →
  rc ≠ 0 →
  compile_each host protoc output_dir (l1 ++ f :: l2) cmd w =
  (Exit 1,
   mkWorld (environ w) (cwd w) (sys_path w) d2 (stderr w)
           (spawned w ++ (python_cmd protoc output_dir <$> l1)
                      ++ [python_cmd protoc output_dir f])).
Proof.
  revert cmd w. induction l1 as [|g l1 IH]; intros cmd w Hrun Hf Hrc.
  - simpl in *. injection Hrun as <-. rewrite bind_eval. unfold try_except.
    rewrite subprocess_run_eval, Hf.
    apply Z.eqb_neq in Hrc. by rewrite Hrc.
  - simpl in Hrun. simpl compile_each. rewrite bind_eval. unfold try_except.
    rewrite subprocess_run_eval.
    destruct (exec host _ (cwd w) (pkg w)) as [[rc' d]|]; [|done].
    destruct (rc' =? 0) eqn:Hrc'; [|done].
    rewrite (IH _ (set_pkg d (add_spawned (python_cmd protoc output_dir g) w)) Hrun Hf Hrc).
    simpl. by rewrite <- !(assoc_L (++)).
Qed.

Lemma compile_protos_eval (output_dir protoc : string) (w : World) :
  find_protoc host w = (Ret protoc, w) →
  compile_protos host output_dir w =
  (protoc_cmd_npm ←
     compile_each host protoc output_dir (proto_files output_dir (pkg w))
       [protoc; "--proto_path=."; "--js_out=import_style=commonjs,binary:" +:+ output_dir];
   try_except (subprocess_run host protoc_cmd_npm)
              is_CalledProcessError (λ _, sys_exit 1)) w.
Proof.
  intros Hp. unfold compile_protos. rewrite bind_eval, Hp. reflexivity.
Qed.

Lemma python_cmd_not_js (protoc output_dir f : string) (files : list string) :
  python_cmd protoc output_dir f ≠ js_cmd protoc output_dir files.
Proof.
  unfold python_cmd, js_cmd. intros H. injection H as _ Hbit. discriminate Hbit.
Qed.

End CompileFacts.
(** ** The initializer of the JavaScript package *)

Section IndexFacts.

Lemma prefix_inv (p s : string) : String.prefix p s = true → ∃ r, s = p +:+ r.
Proof.
  revert s. induction p as [|a p IH]; intros s H.
  - by exists s.
  - destruct s as [|b s]; [done|]. simpl in H.
    destruct (ascii_dec a b) as [->|]; [|done].
    destruct (IH s H) as [r ->]. by exists r.
Qed.

Lemma class_name_of_eval (line : string) (w : World) :
  Py.startswith line export_prefix = true →
  class_name_of line w = (Ret (symbol_of line), w).
Proof.
  intros [r ->]%prefix_inv. unfold class_name_of, symbol_of.
  change (export_prefix +:+ r)
    with ("goog.exportSymbol(" +:+ String "'" ("proto.mlens.v1." +:+ r)).
  rewrite PyFacts.split_app_sep.
  rewrite (PyFacts.split_no_sep "'" "goog.exportSymbol(") by done.
  pose proof (PyFacts.split_nonempty "'" ("proto.mlens.v1." +:+ r)) as Hq.
  destruct (Py.split "'" ("proto.mlens.v1." +:+ r)) as [|q qs]; [done|].
  rewrite bind_eval. simpl.
  pose proof (PyFacts.split_nonempty "." q) as Hd. unfold Py.last_item.
  destruct (last (Py.split "." q)) as [c|] eqn:Hl; [done|].
  by apply last_None in Hl.
Qed.

Lemma scan_lines_eval (mn : string) (lines : list string)
    (acc : list (string * string)) (w : World) :
  scan_lines mn lines acc w =
  (Ret (acc ++ ((λ c, (c, mn)) <$>
          (symbol_of <$> filter (λ l, Py.startswith l export_prefix) lines))), w).
Proof.
  revert acc. induction lines as [|l lines IH]; intros acc.
  - simpl. by rewrite ret_eval, app_nil_r.
  - simpl. rewrite filter_cons.
    destruct (Py.startswith l export_prefix) eqn:E.
    + rewrite bind_eval, class_name_of_eval by done.
      rewrite IH, decide_True by done. simpl. by rewrite <- (assoc_L (++)).
    + rewrite IH, decide_False; [done|]. by intros [].
Qed.

Lemma read_text_eval (output_dir n : string) (w : World) :
  read_text output_dir (pkg_path output_dir n) w =
  match dir_lookup n (pkg w) with
  | Some (File t) => (Ret t, w)
  | _ => (Raise OtherException, w)
  end.
Proof.
  unfold read_text.
  assert (∀ d : Dir,
    snd <$> list_find (λ e, pkg_path output_dir e.1 = pkg_path output_dir n) d
    = (λ x, (n, x)) <$> dir_lookup n d) as H.
  { induction d as [|[k x] d IH]; [done|]. simpl.
    destruct (String.eqb k n) eqn:E.
    - apply String.eqb_eq in E as ->. by rewrite decide_True.
    - rewrite decide_False.
      + rewrite <- IH. by destruct (list_find _ d) as [[? ?]|].
      + intros ?%PyFacts.pkg_path_inj. apply String.eqb_neq in E. done. }
  specialize (H (pkg w)).
  destruct (list_find _ (pkg w)) as [[i [k x]]|], (dir_lookup n (pkg w)) as [y|];
    simpl in H; try done.
  injection H as -> ->. done.
Qed.

Lemma mapM_cons_eq {A B} (f : A → option B) (x : A) (l : list A) :
  mapM f (x :: l) =
  match f x with
  | Some y => match mapM f l with Some k => Some (y :: k) | None => None end
  | None => None
  end.
Proof. simpl. destruct (f x); [|done]. by destruct (mapM f l). Qed.

Lemma scan_files_eval (output_dir : string) (names : list string)
    (acc : list (string * string)) (w : World) :
  scan_files output_dir (pkg_path output_dir <$> names) acc w =
  match mapM (js_module output_dir (pkg w)) names with
  | Some mods => (Ret (acc ++ pairs_of mods), w)
  | None => (Raise OtherException, w)
  end.
Proof.
  revert acc. induction names as [|n names IH]; intros acc.
  - simpl. by rewrite ret_eval, app_nil_r.
  - rewrite fmap_cons. simpl scan_files. rewrite bind_eval, read_text_eval.
    rewrite mapM_cons_eq. unfold js_module at 1.
    destruct (dir_lookup n (pkg w)) as [[t|]|]; [|done..].
    rewrite bind_eval, scan_lines_eval, IH. simpl.
    destruct (mapM _ names) as [mods|]; [|done]. simpl.
    unfold pairs_of at 2. simpl. by rewrite <- (assoc_L (++)).
Qed.

Lemma write_requires_eval (f : string) (modules : list (string * list string))
    (w : World) (t0 : string) :
  dir_lookup f (pkg w) = Some (File t0) →
  write_requires f modules w =
  (Ret tt,
   set_pkg (dir_put f (t0 +:+ text_of ((λ m, require_line m.1 m.2) <$> modules)) (pkg w)) w).
Proof.
  revert w t0. induction modules as [|[mn cl] modules IH]; intros w t0 Hf.
  - simpl. rewrite ret_eval, PyFacts.app_nil_r, (dir_put_id _ _ _ Hf).
    by rewrite set_pkg_id.
  - simpl. rewrite bind_eval, (f_write_eval _ _ _ _ Hf).
    rewrite (IH _ (t0 +:+ require_line mn cl)) by apply dir_lookup_put_eq.
    simpl. by rewrite dir_put_put, PyFacts.app_assoc.
Qed.

(** The whole stage, evaluated. *)
Lemma generate_index_js_eval (output_dir : string) (w : World) :
  generate_index_js output_dir w =
  match mapM (js_module output_dir (pkg w)) (js_names (pkg w)) with
  | Some mods =>
      match dir_lookup "index.js" (pkg w) with
      | Some Folder => (Exit 1, w)
      | _ => (Ret tt, set_pkg (dir_put "index.js" (index_text (pairs_of mods)) (pkg w)) w)
      end
  | None => (Exit 1, w)
  end.
Proof.
  unfold generate_index_js, try_except. rewrite bind_eval. unfold glob at 1.
  rewrite bind_eval. fold is_js_module. fold (js_names (pkg w)).
  rewrite scan_files_eval.
  destruct (mapM _ (js_names (pkg w))) as [mods|]; [|done].
  rewrite app_nil_l, bind_eval. unfold open_w at 1.
  destruct (dir_lookup "index.js" (pkg w)) as [[t|]|] eqn:Hl; [|done|].
  all: rewrite bind_eval, (write_requires_eval _ _ _ "") by apply dir_lookup_put_eq;
    rewrite bind_eval;
    erewrite f_write_eval by (cbn [pkg set_pkg]; apply dir_lookup_put_eq);
    rewrite bind_eval;
    erewrite f_write_eval by (cbn [pkg set_pkg]; apply dir_lookup_put_eq);
    rewrite bind_eval;
    erewrite f_write_eval by (cbn [pkg set_pkg]; apply dir_lookup_put_eq);
    erewrite f_write_eval by (cbn [pkg set_pkg]; apply dir_lookup_put_eq);
    simpl; rewrite !dir_put_put; unfold index_text;
    rewrite text_of_app; simpl;
    by rewrite !PyFacts.app_nil_l, !PyFacts.app_nil_r, <- !PyFacts.app_assoc.
Qed.

End IndexFacts.
(** ** Grouping, de-duplication and sorting *)

Section GroupFacts.

Implicit Types (acc mods : list (string * list string)) (mn c : string).

Lemma setdefault_append_fresh mn c acc :
  mn ∉ acc.*1 → setdefault_append mn c acc = acc ++ [(mn, [c])].
Proof.
  induction acc as [|[k v] acc IH]; [done|].
  rewrite fmap_cons, not_elem_of_cons. intros [Hne Hnin]. simpl.
  rewrite (proj2 (String.eqb_neq k mn)) by done. by rewrite IH.
Qed.

Lemma setdefault_append_last mn c acc (v : list string) :
  mn ∉ acc.*1 →
  setdefault_append mn c (acc ++ [(mn, v)]) = acc ++ [(mn, v ++ [c])].
Proof.
  induction acc as [|[k w] acc IH].
  - intros _. simpl. by rewrite String.eqb_refl.
  - rewrite fmap_cons, not_elem_of_cons. intros [Hne Hnin]. simpl.
    rewrite (proj2 (String.eqb_neq k mn)) by done. by rewrite IH.
Qed.

Lemma group_more mn acc (v syms : list string) :
  mn ∉ acc.*1 →
  foldl (λ modules cm, setdefault_append cm.2 cm.1 modules) (acc ++ [(mn, v)])
        ((λ c, (c, mn)) <$> syms)
  = acc ++ [(mn, v ++ syms)].
Proof.
  intros Hnin. revert v. induction syms as [|c syms IH]; intros v.
  - by rewrite app_nil_r.
  - rewrite fmap_cons. cbn [foldl fst snd]. rewrite setdefault_append_last by done.
    rewrite IH. by rewrite <- (assoc_L (++)).
Qed.

Lemma group_one mn acc (syms : list string) :
  mn ∉ acc.*1 →
  foldl (λ modules cm, setdefault_append cm.2 cm.1 modules) acc
        ((λ c, (c, mn)) <$> syms)
  = acc ++ filter (λ m, m.2 ≠ []) [(mn, syms)].
Proof.
  intros Hnin. destruct syms as [|c syms].
  - rewrite filter_cons_False by (simpl; auto). simpl. by rewrite app_nil_r.
  - rewrite filter_cons_True by done. rewrite fmap_cons. cbn [foldl fst snd].
    rewrite setdefault_append_fresh by done.
    by rewrite (group_more mn acc [c] syms).
Qed.

Lemma group_pairs_of acc mods :
  NoDup mods.*1 →
  (∀ m, m ∈ mods → m.1 ∉ acc.*1) →
  foldl (λ modules cm, setdefault_append cm.2 cm.1 modules) acc (pairs_of mods)
  = acc ++ filter (λ m, m.2 ≠ []) mods.
Proof.
  revert acc. induction mods as [|[mn syms] mods IH]; intros acc Hnd Hfresh.
  - simpl. by rewrite app_nil_r.
  - rewrite fmap_cons in Hnd. apply NoDup_cons in Hnd as [Hmn Hnd].
    unfold pairs_of. rewrite bind_cons. fold (pairs_of mods).
    rewrite foldl_app. simpl.
    rewrite group_one by (apply (Hfresh (mn, syms)); left).
    rewrite IH; [|done|].
    + rewrite <- (assoc_L (++)). f_equal.
      destruct syms.
      * by rewrite !filter_cons_False by (simpl; auto).
      * by rewrite !filter_cons_True by done.
    + intros m Hm. rewrite fmap_app, not_elem_of_app. split.
      * apply Hfresh. by right.
      * intros Hin. apply Hmn.
        assert (m.1 = mn) as <-.
        { destruct syms; [rewrite filter_cons_False in Hin by (simpl; auto)
                         |rewrite filter_cons_True in Hin by done];
            simpl in Hin; [by apply elem_of_nil in Hin|].
          by apply list_elem_of_singleton in Hin. }
        apply list_elem_of_fmap. by exists m.
Qed.

Lemma group_by_module_pairs_of mods :
  NoDup mods.*1 →
  group_by_module (pairs_of mods) = filter (λ m, m.2 ≠ []) mods.
Proof.
  intros Hnd. unfold group_by_module.
  rewrite group_pairs_of; [done..|]. intros m _. apply not_elem_of_nil.
Qed.

Lemma pairs_of_symbols mods : (pairs_of mods).*1 = all_symbols mods.
Proof.
  unfold pairs_of, all_symbols. induction mods as [|[mn syms] mods IH]; [done|].
  rewrite !bind_cons, fmap_app, IH. f_equal. simpl.
  rewrite <- list_fmap_compose. by rewrite list_fmap_id.
Qed.

End GroupFacts.
Section UniqueFacts.

Implicit Types (l acc : list string) (seen : gset string) (x y : string).

Lemma unique_loop_spec l seen acc :
  unique_loop l seen acc = acc ++ filter (λ y, y ∉ seen) (dedup_first l).
Proof.
  revert seen acc. induction l as [|c l IH]; intros seen acc.
  - simpl. by rewrite app_nil_r.
  - simpl. destruct (decide (c ∈ seen)) as [Hc|Hc].
    + rewrite IH, filter_cons_False by auto. f_equal.
      rewrite list_filter_filter. apply list_filter_iff.
      intros y. split; [|tauto]. intros Hy. split; [done|]. by intros ->.
    + rewrite IH, filter_cons_True by done.
      rewrite <- (assoc_L (++)). simpl. do 2 f_equal.
      rewrite list_filter_filter. apply list_filter_iff.
      intros y. rewrite not_elem_of_union, not_elem_of_singleton. tauto.
Qed.

Lemma unique_loop_dedup_first l : unique_loop l ∅ [] = dedup_first l.
Proof.
  rewrite unique_loop_spec. simpl.
  induction (dedup_first l) as [|y k IH]; [done|].
  rewrite filter_cons_True by apply not_elem_of_empty. by rewrite IH.
Qed.

Lemma elem_of_dedup_first x l : x ∈ dedup_first l ↔ x ∈ l.
Proof.
  induction l as [|c l IH]; [done|]. simpl.
  rewrite !elem_of_cons, list_elem_of_filter, IH.
  destruct (decide (x = c)); tauto.
Qed.

Lemma NoDup_dedup_first l : NoDup (dedup_first l).
Proof.
  induction l as [|c l IH]; simpl; [constructor|].
  apply NoDup_cons. split.
  - rewrite list_elem_of_filter. tauto.
  - by apply NoDup_filter.
Qed.

(** Positions in a filtered list come from positions of the list, in the
    same order. *)
Lemma filter_lookup_order (P : string → Prop) `{!∀ y, Decision (P y)} l i j x y :
  (i < j)%nat → filter P l !! i = Some x → filter P l !! j = Some y →
  ∃ i' j', (i' < j')%nat ∧ l !! i' = Some x ∧ l !! j' = Some y.
Proof.
  revert i j. induction l as [|c l IH]; intros i j Hij Hi Hj; [done|].
  rewrite filter_cons in Hi, Hj. destruct (decide (P c)).
  - destruct i as [|i], j as [|j]; try lia; simpl in *.
    + injection Hi as ->.
      apply list_elem_of_lookup_2, list_elem_of_filter in Hj as [_ Hy].
      apply list_elem_of_lookup_1 in Hy as [j' Hj'].
      exists 0%nat, (S j'). split; [lia|done].
    + destruct (IH i j) as (i' & j' & ? & ? & ?); [lia|done..|].
      exists (S i'), (S j'). split; [lia|done].
  - destruct (IH i j) as (i' & j' & ? & ? & ?); [done..|].
    exists (S i'), (S j'). split; [lia|done].
Qed.

Lemma first_index_cons_eq x l : first_index x (x :: l) = Some 0%nat.
Proof. unfold first_index. simpl. by rewrite decide_True. Qed.

Lemma first_index_cons_ne x c l :
  x ≠ c → first_index x (c :: l) = S <$> first_index x l.
Proof.
  intros Hne. unfold first_index. simpl. rewrite decide_False by done.
  by destruct (list_find _ l) as [[? ?]|].
Qed.

Lemma first_index_is_Some x l : x ∈ l → is_Some (first_index x l).
Proof.
  induction l as [|c l IH]; [by intros ?%elem_of_nil|].
  intros Hx. destruct (decide (x = c)) as [->|Hne].
  - rewrite first_index_cons_eq. eauto.
  - rewrite first_index_cons_ne by done.
    apply elem_of_cons in Hx as [?|Hx]; [done|].
    destruct (IH Hx) as [i ->]. eauto.
Qed.

(** In [dedup_first l] the elements stand in the order of their first
    occurrences in [l]. *)
Lemma dedup_first_order l i j x y :
  (i < j)%nat → dedup_first l !! i = Some x → dedup_first l !! j = Some y →
  ∃ i' j', first_index x l = Some i' ∧ first_index y l = Some j' ∧ (i' < j')%nat.
Proof.
  revert i j. induction l as [|c l IH]; intros i j Hij Hi Hj; [done|].
  simpl in Hi, Hj. destruct i as [|i], j as [|j]; try lia; simpl in *.
  - injection Hi as ->.
    apply list_elem_of_lookup_2, list_elem_of_filter in Hj as [Hne Hy].
    apply (proj1 (elem_of_dedup_first _ _)) in Hy.
    apply first_index_is_Some in Hy as [j' Hj'].
    exists 0%nat, (S j'). rewrite first_index_cons_eq, first_index_cons_ne, Hj' by done.
    split; [done|]. split; [done|lia].
  - assert (x ≠ c ∧ y ≠ c) as [Hx Hy].
    { apply list_elem_of_lookup_2, list_elem_of_filter in Hi as [? _].
      apply list_elem_of_lookup_2, list_elem_of_filter in Hj as [? _]. done. }
    destruct (filter_lookup_order (λ z, z ≠ c) (dedup_first l) i j x y)
      as (a & b & Hab & Ha & Hb); [lia|done..|].
    destruct (IH a b Hab Ha Hb) as (i' & j' & Hi' & Hj' & Hlt).
    exists (S i'), (S j').
    rewrite !first_index_cons_ne, Hi', Hj' by done. split; [done|]. split; [done|lia].
Qed.

(** [sorted(set(l))] is ascending, has no element twice and has the elements
    of [l]. *)
Lemma sorted_set_spec l :
  Sorted String.le (Py.sorted_set l)
  ∧ NoDup (Py.sorted_set l)
  ∧ ∀ x, x ∈ Py.sorted_set l ↔ x ∈ l.
Proof.
  unfold Py.sorted_set. split; [|split].
  - apply (Sorted_merge_sort String.le).
  - rewrite merge_sort_Permutation. apply NoDup_remove_dups.
  - intros x. by rewrite merge_sort_Permutation, elem_of_remove_dups.
Qed.

End UniqueFacts.
Section ModuleFacts.

Lemma js_names_entries (d : Dir) : js_names d = (js_entries d).*1.
Proof.
  unfold js_names, js_entries. induction d as [|[k x] d IH]; [done|].
  rewrite fmap_cons, !filter_cons. simpl.
  destruct (decide (is_js_module k)); [rewrite fmap_cons|]; by rewrite IH.
Qed.

Lemma dir_lookup_elem (d : Dir) (n : string) (x : Node) :
  NoDup d.*1 → (n, x) ∈ d → dir_lookup n d = Some x.
Proof.
  induction d as [|[k y] d IH]; [by intros _ ?%elem_of_nil|].
  rewrite fmap_cons, NoDup_cons. intros [Hk Hnd] [[= -> ->]|Hin]%elem_of_cons; simpl.
  - by rewrite String.eqb_refl.
  - destruct (String.eqb k n) eqn:E; [|by apply IH].
    apply String.eqb_eq in E as ->. destruct Hk.
    apply list_elem_of_fmap. by exists (n, x).
Qed.

Lemma is_js_module_endswith (n : string) :
  is_js_module n = true → Py.endswith n "_pb.js" = true.
Proof. unfold is_js_module, glob_match. by intros [_ ?]%andb_prop. Qed.

(** On a well-formed listing whose JavaScript modules are regular files,
    the stage reads exactly [js_modules]. *)
Lemma js_module_all (output_dir : string) (d : Dir) :
  wf_dir d → js_readable d →
  mapM (js_module output_dir d) (js_names d) = Some (js_modules d).
Proof.
  intros [Hnd Hslash] Hread. rewrite js_names_entries. unfold js_modules.
  apply mapM_Some_2, Forall2_fmap, Forall2_same_length_lookup_2; [done|].
  intros i e e' He He'. rewrite He in He'. injection He' as <-.
  destruct e as [n x]. simpl.
  assert ((n, x) ∈ js_entries d) as Hin by by eapply list_elem_of_lookup_2.
  pose proof (proj1 (Forall_forall _ _) Hread _ Hin) as Hfile.
  apply list_elem_of_filter in Hin as [_ Hin].
  unfold js_module. rewrite (dir_lookup_elem _ _ _ Hnd Hin).
  destruct x as [t|]; [|done]. simpl.
  rewrite PyFacts.basename_pkg_path; [done|].
  apply (proj1 (Forall_forall _ _) Hslash). apply list_elem_of_fmap. by exists (n, File t).
Qed.

Lemma js_modules_NoDup (d : Dir) : NoDup d.*1 → NoDup (js_modules d).*1.
Proof.
  intros Hnd. unfold js_modules. rewrite <- list_fmap_compose.
  apply NoDup_fmap_2_strong.
  - intros [n x] [n' x'] Hin Hin' Heq. simpl in Heq.
    apply list_elem_of_filter in Hin as [Hjs Hin].
    apply list_elem_of_filter in Hin' as [Hjs' Hin'].
    apply PyFacts.slice_js_inj in Heq as <-;
      [|by apply is_js_module_endswith, Is_true_true..].
    f_equal. pose proof (dir_lookup_elem _ _ _ Hnd Hin) as H1.
    pose proof (dir_lookup_elem _ _ _ Hnd Hin') as H2. congruence.
  - unfold js_entries. apply NoDup_filter. by eapply NoDup_fmap_1.
Qed.

(** The stage on a well-formed listing. *)
Lemma generate_index_js_wf (output_dir : string) (w : World) :
  wf_dir (pkg w) → js_readable (pkg w) →
  dir_lookup "index.js" (pkg w) ≠ Some Folder →
  generate_index_js output_dir w =
  (Ret tt,
   set_pkg
     (dir_put "index.js"
        (text_of (require_section (js_modules (pkg w))
                  ++ [Py.nl; "module.exports = {" +:+ Py.nl;
                      exports_line (dedup_first (all_symbols (js_modules (pkg w))));
                      "};" +:+ Py.nl]))
        (pkg w)) w).
Proof.
  intros Hwf Hread Hidx. rewrite generate_index_js_eval, js_module_all by done.
  unfold index_text.
  rewrite group_by_module_pairs_of by (apply js_modules_NoDup, Hwf).
  rewrite pairs_of_symbols, unique_loop_dedup_first.
  by destruct (dir_lookup "index.js" (pkg w)) as [[t|]|].
Qed.

End ModuleFacts.
(** ** What the aggregators depend on *)

Section DependFacts.

Variable host : Host.

Lemma filter_names (P : string → bool) (d : Dir) :
  filter (λ n, P n) d.*1 = (filter (λ e, P e.1) d).*1.
Proof.
  induction d as [|[k x] d IH]; [done|].
  rewrite fmap_cons, !filter_cons. simpl.
  destruct (decide (P k)); [rewrite fmap_cons|]; by rewrite IH.
Qed.

(** The imports of the initializer are those of the generated Python
    modules alone. *)
Lemma init_loads_py_entries (path : list string) (d : Dir) :
  init_loads host path d d.*1
  = init_loads host path (py_entries d) (py_entries d).*1.
Proof.
  rewrite init_loads_filter, (filter_names is_py_module). fold (py_entries d).
  apply init_loads_ext. intros n _ Hn. unfold py_entries.
  by rewrite (dir_lookup_filter is_py_module).
Qed.

Lemma generate_init_depends (output_dir : string) (w : World) :
  dir_lookup "__init__.py" (pkg w) ≠ Some Folder →
  let l := init_loads host (output_dir :: sys_path w) (py_entries (pkg w))
                      (py_entries (pkg w)).*1 in
  (generate_init host output_dir w).1 =
    match path_after (output_dir :: sys_path w) l with
    | [] => Raise OtherException
    | _ :: _ => if all_loaded l then Ret tt else Exit 1
    end
  ∧ dir_text "__init__.py" (pkg (generate_init host output_dir w).2)
    = text_of (import_lines (l ≫= loaded_pairs)).
Proof.
  intros Hf l. rewrite (generate_init_eval _ _ _ Hf). cbv zeta.
  rewrite init_loads_py_entries. fold l. cbn [fst snd pkg].
  by rewrite with_cache_text.
Qed.

(** What the JavaScript initializer reads is what the generated JavaScript
    modules alone give. *)
Lemma js_module_js_entries (output_dir : string) (d : Dir) (names : list string) :
  Forall (λ n, is_js_module n = true) names →
  mapM (js_module output_dir d) names
  = mapM (js_module output_dir (js_entries d)) names.
Proof.
  induction 1 as [|n names Hn _ IH]; [done|].
  rewrite !mapM_cons_eq, IH. unfold js_module, js_entries.
  by rewrite (dir_lookup_filter is_js_module).
Qed.

Lemma generate_index_js_depends (output_dir : string) (w : World) :
  dir_lookup "index.js" (pkg w) ≠ Some Folder →
  let r : option (list (string * list string)) :=
    mapM (js_module output_dir (js_entries (pkg w))) (js_entries (pkg w)).*1 in
  (generate_index_js output_dir w).1 = match r with Some _ => Ret tt | None => Exit 1 end
  ∧ ((generate_index_js output_dir w).1 = Ret tt →
     Some (dir_text "index.js" (pkg (generate_index_js output_dir w).2))
     = (λ mods, index_text (pairs_of mods)) <$> r).
Proof.
  intros Hf r. rewrite generate_index_js_eval.
  rewrite js_module_js_entries.
  2:{ unfold js_names. apply Forall_forall. intros n [Hn _]%list_elem_of_filter.
      by apply Is_true_true. }
  rewrite js_names_entries. fold r.
  destruct r as [mods|]; [|done].
  destruct (dir_lookup "index.js" (pkg w)) as [[t|]|]; [|done|]; simpl;
    by rewrite dir_text_put_eq.
Qed.

End DependFacts.
(** ** The walk of the initializer *)

Section WalkFacts.

Variable host : Host.

Lemma all_loaded_Forall (l : list (string * Imported)) :
  all_loaded l = true ↔ Forall (λ x, is_Some (imp_module x.2)) l.
Proof.
  induction l as [|x l IH]; [done|]. unfold all_loaded in *. simpl.
  rewrite Forall_cons, <- IH. destruct (imp_module x.2); simpl.
  - split; [by eauto|]. by intros [_ ?].
  - split; [done|]. by intros [[? [=]] _].
Qed.

Lemma all_loaded_cons (x : string * Imported) (l : list (string * Imported)) :
  all_loaded (x :: l)
  = (match imp_module x.2 with Some _ => true | None => false end) && all_loaded l.
Proof. reflexivity. Qed.

Lemma path_after_cons (path : list string) (x : string * Imported)
    (l : list (string * Imported)) :
  path_after path (x :: l) = path_after (imp_sys_path x.2) l.
Proof. reflexivity. Qed.

Lemma all_loaded_app (l k : list (string * Imported)) :
  all_loaded (l ++ k) = all_loaded l && all_loaded k.
Proof. unfold all_loaded. apply forallb_app. Qed.

Lemma path_after_app (path : list string) (l k : list (string * Imported)) :
  path_after path (l ++ k) = path_after (path_after path l) k.
Proof. unfold path_after. apply foldl_app. Qed.

(** The walk over a listing in two parts: the second part is walked, from
    the [sys.path] the first part leaves, when every module of the first
    part loads. *)
Lemma init_loads_app (path : list string) (d : Dir) (pre rest : list string) :
  init_loads host path d (pre ++ rest) =
  let l := init_loads host path d pre in
  if all_loaded l then l ++ init_loads host (path_after path l) d rest else l.
Proof.
  revert path. induction pre as [|n pre IH]; intros path; [done|].
  simpl. destruct (is_py_module n) eqn:E; [|apply IH].
  rewrite all_loaded_cons. cbn [snd].
  destruct (imp_module (import_py host path d n)) eqn:Hm; [|done].
  rewrite IH. cbv zeta. rewrite path_after_cons. cbn [snd andb].
  by destruct (all_loaded _).
Qed.

(** The modules of the walk are generated modules of the listing, in the
    order of the listing; all of them when every one loads. *)
Lemma init_loads_names (path : list string) (d : Dir) (names : list string) :
  (init_loads host path d names).*1 `prefix_of` filter (λ n, is_py_module n) names
  ∧ (all_loaded (init_loads host path d names) = true →
     (init_loads host path d names).*1 = filter (λ n, is_py_module n) names).
Proof.
  revert path. induction names as [|n names IH]; intros path.
  - split; [by exists []|done].
  - rewrite filter_cons. simpl. destruct (is_py_module n) eqn:E.
    + rewrite decide_True by done. rewrite all_loaded_cons. cbn [snd].
      destruct (imp_module (import_py host path d n)) eqn:Hm.
      * destruct (IH (imp_sys_path (import_py host path d n))) as [[k Hk] Hall].
        rewrite fmap_cons. cbn [fst andb].
        split; [exists k; by rewrite Hk|]. intros H. by rewrite Hall.
      * split; [|done]. rewrite fmap_cons. by eexists.
    + rewrite decide_False by (by intros []). apply IH.
Qed.

Lemma init_loads_elem (path : list string) (d : Dir) (names : list string)
    (x : string * Imported) :
  x ∈ init_loads host path d names →
  x.1 ∈ names ∧ is_py_module x.1 = true ∧ ∃ p, x.2 = import_py host p d x.1.
Proof.
  revert path. induction names as [|n names IH]; intros path; [by intros ?%elem_of_nil|].
  simpl. destruct (is_py_module n) eqn:E.
  - intros [->|Hx]%elem_of_cons.
    + simpl. split; [left|]. split; [done|]. by eexists.
    + destruct (imp_module _); [|by apply elem_of_nil in Hx].
      destruct (IH _ Hx) as (? & ? & ?). split; [by right|done].
  - intros Hx. destruct (IH _ Hx) as (? & ? & ?). split; [by right|done].
Qed.

Lemma NoDup_fst_unique {A B} (l : list (A * B)) (a : A) (b1 b2 : B) :
  NoDup l.*1 → (a, b1) ∈ l → (a, b2) ∈ l → b1 = b2.
Proof.
  induction l as [|[a' b'] l IH]; [by intros _ ?%elem_of_nil|].
  rewrite fmap_cons, NoDup_cons. simpl. intros [Hnin Hnd].
  intros H1 H2. apply elem_of_cons in H1, H2.
  destruct H1 as [H1|H1], H2 as [H2|H2].
  - congruence.
  - injection H1 as -> ->. destruct Hnin. apply list_elem_of_fmap. by exists (a', b2).
  - injection H2 as -> ->. destruct Hnin. apply list_elem_of_fmap. by exists (a', b1).
  - by apply IH.
Qed.

Lemma init_loads_NoDup (path : list string) (d : Dir) (names : list string) :
  NoDup names → NoDup (init_loads host path d names).*1.
Proof.
  intros Hnd. destruct (init_loads_names path d names) as [[k Hk] _].
  apply (NoDup_filter (λ n, is_py_module n)) in Hnd. rewrite Hk in Hnd.
  by apply NoDup_app in Hnd as [? _].
Qed.

(** The pairs written for a list of imports are those of the classes each
    loaded module declares itself. *)
Lemma loaded_pairs_spec (l : list (string * Imported)) (mn cls : string) :
  (mn, cls) ∈ l ≫= loaded_pairs ↔
  ∃ filename x m, (filename, x) ∈ l ∧ imp_module x = Some m
    ∧ mn = Py.slice_to_neg 3 filename
    ∧ mod_dict m !! cls = Some (PyClass (mod_name m)).
Proof.
  rewrite list_elem_of_bind. split.
  - intros ([f x] & Hp & Hin). unfold loaded_pairs in Hp. simpl in Hp.
    destruct (imp_module x) as [m|] eqn:Hm; [|by apply elem_of_nil in Hp].
    apply list_elem_of_fmap in Hp as (c & [= -> ->] & Hc%class_names_spec).
    by exists f, x, m.
  - intros (f & x & m & Hin & Hm & -> & Hc). exists (f, x). split; [|done].
    unfold loaded_pairs. simpl. rewrite Hm. apply list_elem_of_fmap.
    exists cls. split; [done|]. by apply class_names_spec.
Qed.

(** Nothing is imported when the listing holds no generated module. *)
Lemma init_loads_none (path : list string) (d : Dir) (names : list string) :
  Forall (λ n, is_py_module n = false) names → init_loads host path d names = [].
Proof.
  induction 1 as [|n names Hn _ IH]; [done|]. simpl. by rewrite Hn.
Qed.

(** Imports that leave [sys.path] as they find it leave it so at the end of
    the walk. *)
Lemma init_path_kept (path : list string) (d : Dir) (names : list string) :
  (∀ p n s, imp_sys_path (import_oracle host p n s) = p) →
  init_path host path d names = path.
Proof.
  intros Hkeep. unfold init_path, path_after.
  revert path. induction names as [|n names IH]; intros path; [done|].
  simpl. destruct (is_py_module n); [|apply IH]. simpl.
  assert (imp_sys_path (import_py host path d n) = path) as Hp by apply Hkeep.
  destruct (imp_module _); simpl; [|done]. rewrite Hp. apply IH.
Qed.

End WalkFacts.
(** ** The stub generator *)

Section StubFacts.

Variable host : Host.

(** The stage when the tool returns 0 and the saved directory can be entered
    again. *)
Lemma generate_stubs_ok (output_dir stubgen c' : string) (d : Dir) (w : World) :
  which host "stubgen" = Some stubgen →
  chdir_target host (cwd w) output_dir = Some c' →
  exec host (stubgen_cmd stubgen) c' (pkg w) = Some (0, d) →
  chdir_target host c' (cwd w) = Some (cwd w) →
  generate_stubs host output_dir w =
  (Ret tt, set_pkg d (add_spawned (stubgen_cmd stubgen) w)).
Proof.
  intros Hw Hc He Hback. unfold generate_stubs. rewrite Hw.
  rewrite bind_eval. unfold getcwd at 1. rewrite bind_eval.
  unfold chdir at 1. rewrite Hc. rewrite bind_eval. unfold try_except.
  rewrite subprocess_run_eval. simpl. rewrite He. simpl.
  unfold chdir. simpl. rewrite Hback. by destruct w.
Qed.

End StubFacts.

(** ** The claims *)

Section Claims.

Variable host : Host.

(** C1 (the code departs from the claim): when the stub tool returns a
    non-zero code, [generate_stubs] ends the process with status 1 while the
    working directory is still the output root it entered; the directory
    that was current before the stage is not entered again. *)
Theorem generate_stubs_failure_keeps_cwd (output_dir stubgen c' : string)
    (rc : Z) (d : Dir) (w : World) :
  which host "stubgen" = Some stubgen →
  chdir_target host (cwd w) output_dir = Some c' →
  exec host (stubgen_cmd stubgen) c' (pkg w) = Some (rc, d) →
  rc ≠ 0 →
  generate_stubs host output_dir w =
  (Exit 1,
   mkWorld (environ w) c' (sys_path w) d (stderr w)
           (spawned w ++ [stubgen_cmd stubgen])).
Proof.
  intros Hw Hc He Hrc. unfold generate_stubs. rewrite Hw.
  rewrite bind_eval. unfold getcwd at 1. rewrite bind_eval.
  unfold chdir at 1. rewrite Hc. rewrite bind_eval. unfold try_except.
  rewrite subprocess_run_eval. simpl. rewrite He.
  apply Z.eqb_neq in Hrc. by rewrite Hrc.
Qed.

(** C3: when the per-file Python command of one schema file returns a
    non-zero code after the commands of the files before it returned 0,
    [compile_protos] exits with status 1; the commands it has run are those
    of the files up to and including the failing one, so no later file is
    compiled and the JavaScript command is never run; and the package
    directory is the one the invocations left, nothing is rolled back. *)
Theorem compile_protos_stops_at_first_failure (output_dir protoc f : string)
    (l1 l2 : list string) (d1 d2 : Dir) (rc : Z) (w : World) :
  find_protoc host w = (Ret protoc, w) →
  proto_files output_dir (pkg w) = l1 ++ f :: l2 →
  run_all host (cwd w) (python_cmd protoc output_dir <$> l1) (pkg w) = Some d1 →
  exec host (python_cmd protoc output_dir f) (cwd w) d1 = Some (rc, d2) →
  rc ≠ 0 →
  let r := compile_protos host output_dir w in
  r.1 = Exit 1
  ∧ exit_status r.1 ≠ 0
  ∧ spawned r.2 =
      spawned w ++ (python_cmd protoc output_dir <$> l1)
                ++ [python_cmd protoc output_dir f]
  ∧ (∀ argv, argv ∈ spawned r.2 → argv ∉ spawned w →
       argv ≠ js_cmd protoc output_dir (l1 ++ f :: l2)
       ∧ ∃ g, g ∈ l1 ++ [f] ∧ argv = python_cmd protoc output_dir g)
  ∧ pkg r.2 = d2.
Proof.
  intros Hp Hfiles Hrun Hf Hrc r.
  assert (r = (Exit 1,
               mkWorld (environ w) (cwd w) (sys_path w) d2 (stderr w)
                 (spawned w ++ (python_cmd protoc output_dir <$> l1)
                            ++ [python_cmd protoc output_dir f]))) as ->.
  { unfold r. rewrite (compile_protos_eval _ _ _ _ Hp), bind_eval, Hfiles.
    by rewrite (compile_each_fail _ _ _ _ _ _ _ _ _ _ _ Hrun Hf Hrc). }
  simpl. split; [done|]. split; [done|]. split; [done|]. split; [|done].
  intros argv Hin Hnot. split.
  - intros ->. revert Hin. rewrite !elem_of_app, list_elem_of_fmap, list_elem_of_singleton.
    intros [?|[(g & Hg & _)| Hg]]; [done| |]; by eapply python_cmd_not_js.
  - revert Hin. rewrite !elem_of_app, list_elem_of_fmap, list_elem_of_singleton.
    intros [?|[(g & -> & Hg)| ->]]; [done| |].
    + exists g. split; [|done]. apply elem_of_app. by left.
    + exists f. split; [|done]. apply elem_of_app. right. by left.
Qed.

(** C7: when the compiler is found and the per-file Python commands all
    return 0, [compile_protos] runs one Python command per discovered schema
    file, in enumeration order, and then exactly one JavaScript command,
    which carries every discovered file and the include path
    [--proto_path=.]. *)
Theorem compile_protos_invocations (output_dir protoc : string)
    (d1 d2 : Dir) (rc : Z) (w : World) :
  let files := proto_files output_dir (pkg w) in
  find_protoc host w = (Ret protoc, w) →
  run_all host (cwd w) (python_cmd protoc output_dir <$> files) (pkg w) = Some d1 →
  exec host (js_cmd protoc output_dir files) (cwd w) d1 = Some (rc, d2) →
  let r := compile_protos host output_dir w in
  spawned r.2 =
    spawned w
    ++ ((λ f, [protoc; "--proto_path=" +:+ output_dir; "--mypy_out=" +:+ output_dir;
               "--python_out=" +:+ output_dir; f]) <$> files)
    ++ [protoc :: "--proto_path=." ::
        ("--js_out=import_style=commonjs,binary:" +:+ output_dir) :: files]
  ∧ r.1 = (if rc =? 0 then Ret tt else Exit 1)
  ∧ pkg r.2 = d2.
Proof.
  intros files Hp Hrun Hjs r. unfold r.
  rewrite (compile_protos_eval _ _ _ _ Hp), bind_eval.
  fold files. rewrite (compile_each_ok _ _ _ _ _ _ _ Hrun).
  unfold try_except. rewrite subprocess_run_eval. cbn [cwd pkg].
  change ([protoc; "--proto_path=."; "--js_out=import_style=commonjs,binary:" +:+ output_dir] ++ files)
    with (js_cmd protoc output_dir files).
  rewrite Hjs. destruct (rc =? 0); simpl; by rewrite <- (assoc_L (++)).
Qed.

(** C4: [find_protoc] returns the path of the [PROTOC] variable when the
    variable is set and the path exists; when it is set to a path that does
    not exist, or is not set, the result is that of the search path alone
    (nothing is written about the override); given a search that only
    yields existing files, the override is returned exactly when it is set
    and exists; and when neither yields a binary, the error text goes to
    [sys.stderr] and the process exits with status 1, nothing spawned and
    the package directory untouched. *)
Theorem find_protoc_contract (w : World) :
  (∀ p, environ w !! "PROTOC" = Some p → path_exists host p = true →
     find_protoc host w = (Ret p, w))
  ∧ (∀ p, environ w !! "PROTOC" = Some p → path_exists host p = false →
       find_protoc host w = search_path_result host w)
  ∧ (environ w !! "PROTOC" = None →
       find_protoc host w = search_path_result host w)
  ∧ (∀ p, environ w !! "PROTOC" = Some p →
       (∀ q, which host "protoc" = Some q → path_exists host q = true) →
       ((find_protoc host w).1 = Ret p ↔ path_exists host p = true))
  ∧ ((∀ p, environ w !! "PROTOC" = Some p → path_exists host p = false) →
     which host "protoc" = None →
     let r := main host w in
     find_protoc host w = (Exit 1, add_stderr protoc_missing w)
     ∧ r = (Exit 1, add_stderr protoc_missing w)
     ∧ exit_status r.1 ≠ 0
     ∧ pkg r.2 = pkg w
     ∧ spawned r.2 = spawned w).
Proof.
  split; [|split; [|split; [|split]]].
  - unfold find_protoc. intros p -> ->. done.
  - unfold find_protoc, search_path_result. intros p -> ->.
    by destruct (which host "protoc").
  - unfold find_protoc, search_path_result. intros ->.
    by destruct (which host "protoc").
  - unfold find_protoc. intros p -> Hsound.
    destruct (path_exists host p) eqn:Hp; [done|].
    destruct (which host "protoc") as [q|] eqn:Hq; simpl; [|done].
    split; [|done]. intros [= ->]. by rewrite (Hsound p) in Hp.
  - intros Hno Hwhich r.
    assert (find_protoc host w = (Exit 1, add_stderr protoc_missing w)) as Hfind.
    { unfold find_protoc. rewrite Hwhich.
      destruct (environ w !! "PROTOC") as [p|] eqn:Hp; [|done].
      by rewrite (Hno p). }
    assert (r = (Exit 1, add_stderr protoc_missing w)) as ->.
    { unfold r, main. rewrite bind_eval.
      assert (∀ v : World, (if path_exists host "." then mret () else makedirs ".") v
                           = (Ret tt, v)) as ->.
      { intros v. by destruct (path_exists host "."). }
      rewrite bind_eval. unfold compile_protos. by rewrite bind_eval, Hfind. }
    done.
Qed.

(** C10 (as amended): [generate_init] starts its imports with the output
    directory at the front of [sys.path] and, on every exit path, removes
    the entry that is at the front once the imports are made, whatever that
    entry is.  So [sys.path] after the stage is what the imports left of
    [output_dir :: sys.path], less its first entry; the stage returns or
    exits with status 1 unless [sys.path] is empty by then.  When the
    imports leave [sys.path] as they find it, the entry removed is the
    output directory and [sys.path] after the stage is the one before
    it. *)
Theorem generate_init_restores_sys_path (output_dir : string) (w : World) :
  let left := init_path host (output_dir :: sys_path w) (pkg w) (pkg w).*1 in
  let r := generate_init host output_dir w in
  (dir_lookup "__init__.py" (pkg w) ≠ Some Folder →
     sys_path r.2 = tail left
     ∧ (left = [] → r.1 = Raise OtherException)
     ∧ (left ≠ [] → r.1 = Ret tt ∨ r.1 = Exit 1))
  ∧ (dir_lookup "__init__.py" (pkg w) = Some Folder → r = (Exit 1, w))
  ∧ (left = output_dir :: sys_path w →
       sys_path r.2 = sys_path w ∧ (r.1 = Ret tt ∨ r.1 = Exit 1))
  ∧ ((∀ p n s, imp_sys_path (import_oracle host p n s) = p) →
       sys_path r.2 = sys_path w ∧ (r.1 = Ret tt ∨ r.1 = Exit 1)).
Proof.
  intros left r.
  assert (dir_lookup "__init__.py" (pkg w) ≠ Some Folder →
          sys_path r.2 = tail left
          ∧ (left = [] → r.1 = Raise OtherException)
          ∧ (left ≠ [] → r.1 = Ret tt ∨ r.1 = Exit 1)) as Hfile.
  { intros Hf. unfold r. rewrite (generate_init_eval _ _ _ Hf). cbv zeta.
    fold (init_path host (output_dir :: sys_path w) (pkg w) (pkg w).*1). fold left.
    cbn [fst snd sys_path]. split; [done|].
    destruct left as [|q p]; [by split|].
    split; [done|]. intros _. destruct (all_loaded _); auto. }
  assert (dir_lookup "__init__.py" (pkg w) = Some Folder → r = (Exit 1, w)) as Hdir.
  { intros Hf. unfold r. by rewrite (generate_init_folder _ _ _ Hf). }
  assert (left = output_dir :: sys_path w →
          sys_path r.2 = sys_path w ∧ (r.1 = Ret tt ∨ r.1 = Exit 1)) as Hkept.
  { intros Hleft.
    assert (dir_lookup "__init__.py" (pkg w) = Some Folder
            ∨ dir_lookup "__init__.py" (pkg w) ≠ Some Folder) as [Hf|Hf].
    { destruct (dir_lookup "__init__.py" (pkg w)) as [[t|]|]; auto. }
    - rewrite (Hdir Hf). auto.
    - destruct (Hfile Hf) as (Hp & _ & Ho). rewrite Hp, Hleft. split; [done|].
      apply Ho. by rewrite Hleft. }
  split; [done|]. split; [done|]. split; [done|].
  intros Hkeep. apply Hkept. by apply init_path_kept.
Qed.

(** C9: [generate_init] truncates [__init__.py] before it loads any module.
    When the module of an enumerated file does not load, after the modules
    enumerated before it did, the process ends with exit status 1 (by
    [sys.exit(1)], unless [sys.path] is empty when the stage removes its
    first entry) and the aggregator holds the import lines of those earlier
    modules only, whatever it held before the stage; it is empty when no
    module precedes the failing one.  The other entries of the package
    directory are as before, [__pycache__] apart. *)
Theorem generate_init_failure_leaves_partial_file (output_dir n : string)
    (pre post : list string) (w : World) :
  let path := output_dir :: sys_path w in
  let partial := text_of (import_lines (init_pairs host path (pkg w) pre).1) in
  dir_lookup "__init__.py" (pkg w) ≠ Some Folder →
  (dir_put "__init__.py" "" (pkg w)).*1 = pre ++ n :: post →
  (init_pairs host path (pkg w) pre).2 = true →
  is_py_module n = true →
  load_py host (init_path host path (pkg w) pre) (pkg w) n = None →
  let r := generate_init host output_dir w in
  (open_w "__init__.py" w).2 = set_pkg (dir_put "__init__.py" "" (pkg w)) w
  ∧ r.1 ≠ Ret tt
  ∧ exit_status r.1 = 1
  ∧ (imp_sys_path (import_py host (init_path host path (pkg w) pre) (pkg w) n) ≠ [] →
     r.1 = Exit 1)
  ∧ (∀ k, k ≠ "__pycache__" →
       dir_lookup k (pkg r.2) = dir_lookup k (dir_put "__init__.py" partial (pkg w)))
  ∧ dir_text "__init__.py" (pkg r.2) = partial
  ∧ (Forall (λ k, is_py_module k = false) pre → dir_text "__init__.py" (pkg r.2) = "").
Proof.
  intros path partial Hf Hnames Hpre Hn Hload r.
  set (l := init_loads host path (pkg w) pre).
  set (x := import_py host (init_path host path (pkg w) pre) (pkg w) n).
  assert (imp_module x = None) as Hx by exact Hload.
  assert (all_loaded l = true) as Hl by exact Hpre.
  assert (init_loads host path (pkg w) (pkg w).*1 = l ++ [(n, x)]) as Hwalk.
  { rewrite <- (init_loads_names_put host path "" (pkg w)), Hnames, init_loads_app.
    cbv zeta. fold l. rewrite Hl. f_equal. cbn [init_loads]. rewrite Hn.
    change (import_py host (path_after path l) (pkg w) n) with x.
    cbv zeta. by rewrite Hx. }
  assert (all_loaded (l ++ [(n, x)]) = false) as Hall.
  { rewrite all_loaded_app, all_loaded_cons. cbn [snd]. rewrite Hx. apply andb_false_r. }
  assert ((l ++ [(n, x)]) ≫= loaded_pairs = l ≫= loaded_pairs) as Hpairs.
  { rewrite bind_app. unfold loaded_pairs at 2. simpl. rewrite Hx. simpl.
    by rewrite app_nil_r. }
  assert (r = (match imp_sys_path x with [] => Raise OtherException | _ :: _ => Exit 1 end,
               mkWorld (environ w) (cwd w) (tail (imp_sys_path x))
                 (with_cache (l ++ [(n, x)]) (dir_put "__init__.py" partial (pkg w)))
                 (stderr w ++ stderr_of (l ++ [(n, x)])) (spawned w))) as ->.
  { unfold r. rewrite (generate_init_eval _ _ _ Hf). cbv zeta. fold path.
    rewrite Hwalk, Hall, Hpairs, path_after_app. reflexivity. }
  cbn [fst snd pkg]. split.
  { unfold open_w. by destruct (dir_lookup "__init__.py" (pkg w)) as [[?|]|]. }
  split; [by destruct (imp_sys_path x)|].
  split; [by destruct (imp_sys_path x)|].
  split; [by destruct (imp_sys_path x)|].
  split; [intros k Hk; by apply with_cache_lookup_ne|].
  rewrite with_cache_text. split; [done|].
  intros Hnone. unfold partial, init_pairs. simpl.
  by rewrite (init_loads_none host path (pkg w) pre Hnone).
Qed.

(** C6: when [__init__.py] can be opened and every generated module of the
    package directory loads, [__init__.py] is made of the lines
    [from .<module> import <class>], one for each pair of a list of
    (module, class) pairs.  A pair is in that list exactly when the module
    is that of an enumerated file with the suffix [_pb2.py] and the class is
    a member of the module loaded for it whose declaring module is the name
    of that module.  So the file holds the line of every class a module
    declares itself, and, no name being listed twice, a class that a module
    only takes from another one is in no pair of that module. *)
Theorem generate_init_imports_own_classes (output_dir : string) (w : World) :
  let path := output_dir :: sys_path w in
  let loads := init_loads host path (pkg w) (pkg w).*1 in
  let r := generate_init host output_dir w in
  dir_lookup "__init__.py" (pkg w) ≠ Some Folder →
  Forall (λ x, is_Some (imp_module x.2)) loads →
  ∃ pairs,
    dir_text "__init__.py" (pkg r.2)
      = text_of ((λ p, "from ." +:+ p.1 +:+ " import " +:+ p.2 +:+ Py.nl) <$> pairs)
    ∧ (path_after path loads ≠ [] → r.1 = Ret tt)
    ∧ loads.*1 = filter (λ n, is_py_module n) (pkg w).*1
    ∧ (∀ mn cls, (mn, cls) ∈ pairs ↔
         ∃ filename x m, (filename, x) ∈ loads ∧ imp_module x = Some m
           ∧ mn = Py.slice_to_neg 3 filename
           ∧ mod_dict m !! cls = Some (PyClass (mod_name m)))
    ∧ (∀ filename x m cls,
         (filename, x) ∈ loads → imp_module x = Some m →
         mod_dict m !! cls = Some (PyClass (mod_name m)) →
         ∃ before after,
           dir_text "__init__.py" (pkg r.2)
           = before
             +:+ ("from ." +:+ Py.slice_to_neg 3 filename +:+ " import " +:+ cls +:+ Py.nl)
             +:+ after)
    ∧ (NoDup (pkg w).*1 →
       ∀ filename x m cls dm,
         (filename, x) ∈ loads → imp_module x = Some m →
         mod_dict m !! cls = Some (PyClass dm) → dm ≠ mod_name m →
         (Py.slice_to_neg 3 filename, cls) ∉ pairs).
Proof.
  intros path loads r Hf Hall.
  exists (loads ≫= loaded_pairs).
  assert (dir_text "__init__.py" (pkg r.2)
          = text_of ((λ p, "from ." +:+ p.1 +:+ " import " +:+ p.2 +:+ Py.nl)
                     <$> loads ≫= loaded_pairs)) as Htext.
  { unfold r. rewrite (generate_init_eval _ _ _ Hf). cbv zeta. fold path loads.
    cbn [snd pkg]. by rewrite with_cache_text. }
  split; [done|]. split; [|split; [|split; [|split]]].
  - unfold r. rewrite (generate_init_eval _ _ _ Hf). cbv zeta. fold path loads.
    cbn [fst]. apply all_loaded_Forall in Hall. rewrite Hall.
    by destruct (path_after path loads).
  - apply init_loads_names. by apply all_loaded_Forall.
  - intros mn cls. apply loaded_pairs_spec.
  - intros f x m cls Hin Hm Hc. rewrite Htext.
    assert ((Py.slice_to_neg 3 f, cls) ∈ loads ≫= loaded_pairs) as Hp.
    { apply loaded_pairs_spec. by exists f, x, m. }
    apply list_elem_of_split in Hp as (p1 & p2 & ->).
    rewrite fmap_app, fmap_cons, text_of_app. simpl. eauto.
  - intros Hnd f x m cls dm Hin Hm Hc Hdm
           (f' & x' & m' & Hin' & Hm' & Heq & Hc')%loaded_pairs_spec.
    destruct (init_loads_elem host _ _ _ _ Hin) as (_ & Hpy & _).
    destruct (init_loads_elem host _ _ _ _ Hin') as (_ & Hpy' & _).
    simpl in Hpy, Hpy'. apply PyFacts.slice_py_inj in Heq as <-; [|done..].
    assert (x' = x) as ->.
    { pose proof (init_loads_NoDup host path (pkg w) (pkg w).*1 Hnd) as Hl.
      fold loads in Hl. by apply (NoDup_fst_unique loads f x' x Hl). }
    rewrite Hm in Hm'. injection Hm' as <-.
    rewrite Hc in Hc'. by injection Hc' as ->.
Qed.

(** C5: on a well-formed listing whose JavaScript modules can be read,
    [generate_index_js] returns and [index.js] starts with one require line
    per module that has a symbol, the modules in enumeration order and no
    module twice; the line of a module lists between the braces the symbols
    extracted from that module, each once, in ascending order of Python's
    string comparison. *)
Theorem index_js_require_lines (output_dir : string) (w : World) :
  wf_dir (pkg w) → js_readable (pkg w) →
  dir_lookup "index.js" (pkg w) ≠ Some Folder →
  let mods := js_modules (pkg w) in
  let r := generate_index_js output_dir w in
  r.1 = Ret tt
  ∧ (∃ rest, dir_text "index.js" (pkg r.2) = text_of (require_section mods) +:+ rest)
  ∧ require_section mods =
      (λ m, "const { " +:+ Py.join ", " (Py.sorted_set m.2)
            +:+ " } = require('./" +:+ m.1 +:+ "');" +:+ Py.nl)
      <$> filter (λ m, m.2 ≠ []) mods
  ∧ NoDup mods.*1
  ∧ ∀ m, m ∈ mods →
      Sorted String.le (Py.sorted_set m.2)
      ∧ NoDup (Py.sorted_set m.2)
      ∧ ∀ x, x ∈ Py.sorted_set m.2 ↔ x ∈ m.2.
Proof.
  intros Hwf Hread Hidx mods r. unfold r.
  rewrite (generate_index_js_wf _ _ Hwf Hread Hidx). fold mods. simpl.
  split; [done|]. split; [|split; [done|split]].
  - rewrite dir_text_put_eq, text_of_app. eauto.
  - apply js_modules_NoDup, Hwf.
  - intros m _. apply sorted_set_spec.
Qed.

(** C2 (as amended): on a well-formed listing whose JavaScript modules can
    be read, [generate_index_js] returns and [index.js] ends with the export
    block; the export list has every symbol extracted from the modules, none
    twice, and its symbols stand in the order of their first appearance in
    the sequence of the symbols of the modules taken in the order in which
    the directory enumerates them. *)
Theorem index_js_export_list (output_dir : string) (w : World) :
  wf_dir (pkg w) → js_readable (pkg w) →
  dir_lookup "index.js" (pkg w) ≠ Some Folder →
  let mods := js_modules (pkg w) in
  let all := all_symbols mods in
  let exports := dedup_first all in
  let r := generate_index_js output_dir w in
  r.1 = Ret tt
  ∧ dir_text "index.js" (pkg r.2) =
      text_of (require_section mods) +:+ Py.nl
      +:+ "module.exports = {" +:+ Py.nl
      +:+ "  " +:+ Py.join ", " exports +:+ Py.nl
      +:+ "};" +:+ Py.nl
  ∧ NoDup exports
  ∧ (∀ x, x ∈ exports ↔ x ∈ all)
  ∧ (∀ i j x y, (i < j)%nat → exports !! i = Some x → exports !! j = Some y →
       ∃ i' j', first_index x all = Some i' ∧ first_index y all = Some j'
                ∧ (i' < j')%nat).
Proof.
  intros Hwf Hread Hidx mods all exports r. unfold r.
  rewrite (generate_index_js_wf _ _ Hwf Hread Hidx). fold mods all exports. simpl.
  split; [done|]. split; [|split; [|split]].
  - rewrite dir_text_put_eq, text_of_app. simpl. unfold exports_line.
    by rewrite !PyFacts.app_nil_r, <- !PyFacts.app_assoc.
  - apply NoDup_dedup_first.
  - intros x. apply elem_of_dedup_first.
  - intros i j x y. apply dedup_first_order.
Qed.

(** C8: the aggregator stages run on two states that have the same
    [sys.path] and the same generated modules (the same entries with the
    suffix [_pb2.py], the same entries matching [*_pb.js], with the same
    contents and in the same order) end the same way and leave the same
    text in [__init__.py]; and the same text in [index.js] when the stage
    gets to write it. *)
Theorem aggregators_deterministic (output_dir : string) (w1 w2 : World) :
  sys_path w1 = sys_path w2 →
  py_entries (pkg w1) = py_entries (pkg w2) →
  js_entries (pkg w1) = js_entries (pkg w2) →
  dir_lookup "__init__.py" (pkg w1) ≠ Some Folder →
  dir_lookup "__init__.py" (pkg w2) ≠ Some Folder →
  dir_lookup "index.js" (pkg w1) ≠ Some Folder →
  dir_lookup "index.js" (pkg w2) ≠ Some Folder →
  let a1 := generate_init host output_dir w1 in
  let a2 := generate_init host output_dir w2 in
  let b1 := generate_index_js output_dir w1 in
  let b2 := generate_index_js output_dir w2 in
  a1.1 = a2.1
  ∧ dir_text "__init__.py" (pkg a1.2) = dir_text "__init__.py" (pkg a2.2)
  ∧ b1.1 = b2.1
  ∧ (b1.1 = Ret tt →
     dir_text "index.js" (pkg b1.2) = dir_text "index.js" (pkg b2.2)).
Proof.
  intros Hsp Hpy Hjs Hi1 Hi2 Hj1 Hj2 a1 a2 b1 b2.
  destruct (generate_init_depends host output_dir w1 Hi1) as [Ha1 Ht1].
  destruct (generate_init_depends host output_dir w2 Hi2) as [Ha2 Ht2].
  destruct (generate_index_js_depends output_dir w1 Hj1) as [Hb1 Hu1].
  destruct (generate_index_js_depends output_dir w2 Hj2) as [Hb2 Hu2].
  fold a1 in Ha1, Ht1. fold a2 in Ha2, Ht2.
  fold b1 in Hb1, Hu1. fold b2 in Hb2, Hu2.
  rewrite Hsp, Hpy in Ha1, Ht1. rewrite Hjs in Hb1, Hu1.
  split; [congruence|]. split; [congruence|]. split; [congruence|].
  intros Hret. assert (b2.1 = Ret tt) as Hret2 by congruence.
  specialize (Hu1 Hret). specialize (Hu2 Hret2). congruence.
Qed.

End Claims.
(** ** The theorems at work on the concrete build *)

Lemma generate_stubs_failure_keeps_cwd_witness :
  generate_stubs (demo_host true stubgen_fails (λ _, true)) "out" (demo_world ∅)
  = (Exit 1,
     mkWorld ∅ "/repo/out" ["/usr/lib/python3"] demo_dir []
             [["/usr/bin/stubgen"; "-o"; "."; "--no-import"; "-m"; "mlens_proto"]])
  ∧ cwd (demo_world ∅) = "/repo".
Proof.
  split; [|reflexivity].
  apply (generate_stubs_failure_keeps_cwd
           (demo_host true stubgen_fails (λ _, true))
           "out" "/usr/bin/stubgen" "/repo/out" 1 demo_dir (demo_world ∅)).
  - reflexivity.
  - reflexivity.
  - reflexivity.
  - lia.
Defined.

Lemma compile_protos_stops_at_first_failure_witness :
  let r := compile_protos (demo_host true rejects_a (λ _, true)) "." (demo_world ∅) in
  r.1 = Exit 1
  ∧ spawned r.2 =
      [["/usr/bin/protoc"; "--proto_path=."; "--mypy_out=."; "--python_out=.";
        "./mlens_proto/b.proto"];
       ["/usr/bin/protoc"; "--proto_path=."; "--mypy_out=."; "--python_out=.";
        "./mlens_proto/a.proto"]]
  ∧ dir_lookup "b_pb2.py" (pkg r.2) = Some (File "generated")
  ∧ dir_lookup "a_pb2.py" (pkg r.2) = Some (File "stale").
Proof.
  pose proof (compile_protos_stops_at_first_failure
                (demo_host true rejects_a (λ _, true))
                "." "/usr/bin/protoc" "./mlens_proto/a.proto"
                ["./mlens_proto/b.proto"] []
                (dir_put "b_pb2.py" "generated" demo_dir)
                (dir_put "b_pb2.py" "generated" demo_dir)
                1 (demo_world ∅)) as H.
  destruct H as (H1 & _ & H3 & _ & H5); [reflexivity..|lia|].
  intros r. split; [exact H1|]. split; [exact H3|].
  fold r in H5. rewrite H5. split; reflexivity.
Defined.

Lemma compile_protos_invocations_witness :
  spawned (compile_protos good_host "." (demo_world ∅)).2 =
    [["/usr/bin/protoc"; "--proto_path=."; "--mypy_out=."; "--python_out=.";
      "./mlens_proto/b.proto"];
     ["/usr/bin/protoc"; "--proto_path=."; "--mypy_out=."; "--python_out=.";
      "./mlens_proto/a.proto"];
     ["/usr/bin/protoc"; "--proto_path=."; "--js_out=import_style=commonjs,binary:.";
      "./mlens_proto/b.proto"; "./mlens_proto/a.proto"]].
Proof.
  pose proof (compile_protos_invocations good_host "." "/usr/bin/protoc"
                (dir_put "a_pb2.py" "generated" (dir_put "b_pb2.py" "generated" demo_dir))
                (dir_put "a_pb2.py" "generated" (dir_put "b_pb2.py" "generated" demo_dir))
                0 (demo_world ∅)) as H.
  destruct H as (H1 & _); [reflexivity..|]. exact H1.
Defined.
Lemma find_protoc_contract_witness :
  main (demo_host false (λ _, 0) (λ _, true))
       (demo_world {["PROTOC" := "/opt/protoc"]})
  = (Exit 1, add_stderr protoc_missing (demo_world {["PROTOC" := "/opt/protoc"]})).
Proof.
  pose proof (find_protoc_contract (demo_host false (λ _, 0) (λ _, true))
                (demo_world {["PROTOC" := "/opt/protoc"]})) as (_ & _ & _ & _ & H).
  destruct H as (_ & H & _); [reflexivity..|]. exact H.
Defined.

Lemma generate_init_failure_leaves_partial_file_witness :
  let host := demo_host true (λ _, 0) (λ name, negb (String.eqb name "mlens_proto.a_pb2")) in
  let w := set_pkg (dir_put "__init__.py" "from .old_pb2 import Old" demo_dir) (demo_world ∅) in
  let r := generate_init host "." w in
  r.1 = Exit 1
  ∧ dir_text "__init__.py" (pkg w) = "from .old_pb2 import Old"
  ∧ dir_text "__init__.py" (pkg r.2) = "from .b_pb2 import Foo" +:+ Py.nl.
Proof.
  intros host w r.
  pose proof (generate_init_failure_leaves_partial_file host "." "a_pb2.py"
                ["b.proto"; "a.proto"; "b_pb2.py"]
                ["b_pb.js"; "a_pb.js"; "__init__.py"] w) as H.
  destruct H as (_ & _ & _ & H1 & _ & H2 & _).
  - discriminate.
  - reflexivity.
  - vm_compute. reflexivity.
  - reflexivity.
  - vm_compute. reflexivity.
  - split; [apply H1; vm_compute; discriminate|]. split; [reflexivity|].
    fold r in H2. rewrite H2. vm_compute. reflexivity.
Defined.

Lemma generate_init_imports_own_classes_witness :
  let r := generate_init good_host "." (demo_world ∅) in
  r.1 = Ret tt
  ∧ dir_text "__init__.py" (pkg r.2)
    = "from .b_pb2 import Foo" +:+ Py.nl +:+ "from .a_pb2 import Foo" +:+ Py.nl
  ∧ ∃ pairs,
      dir_text "__init__.py" (pkg r.2)
        = text_of ((λ p, "from ." +:+ p.1 +:+ " import " +:+ p.2 +:+ Py.nl) <$> pairs)
      ∧ (∃ before after,
           dir_text "__init__.py" (pkg r.2)
           = before +:+ ("from .a_pb2 import Foo" +:+ Py.nl) +:+ after)
      ∧ ("a_pb2", "Bar") ∉ pairs.
Proof.
  intros r.
  destruct (generate_init_imports_own_classes good_host "." (demo_world ∅))
    as (pairs & Htext & Hret & _ & _ & Hin & Hout).
  - discriminate.
  - repeat constructor; vm_compute; eauto.
  - split; [apply Hret; vm_compute; discriminate|].
    split; [vm_compute; reflexivity|].
    exists pairs. split; [exact Htext|]. split.
    + apply (Hin "a_pb2.py"
               (import_py good_host ["."; "/usr/lib/python3"] demo_dir "a_pb2.py")
               (mkModule "mlens_proto.a_pb2"
                  (<["Foo" := PyClass "mlens_proto.a_pb2"]>
                     (<["Bar" := PyClass "mlens_proto.other_pb2"]>
                        (<["version" := PyOther]> ∅)))) "Foo").
      * rewrite list_elem_of_In. vm_compute. auto.
      * vm_compute. reflexivity.
      * vm_compute. reflexivity.
    + assert (NoDup demo_dir.*1) as Hnd
        by (apply (bool_decide_unpack (NoDup demo_dir.*1)); vm_compute; exact I).
      apply (Hout Hnd
               "a_pb2.py"
               (import_py good_host ["."; "/usr/lib/python3"] demo_dir "a_pb2.py")
               (mkModule "mlens_proto.a_pb2"
                  (<["Foo" := PyClass "mlens_proto.a_pb2"]>
                     (<["Bar" := PyClass "mlens_proto.other_pb2"]>
                        (<["version" := PyOther]> ∅)))) "Bar" "mlens_proto.other_pb2").
      * rewrite list_elem_of_In. vm_compute. auto.
      * vm_compute. reflexivity.
      * vm_compute. reflexivity.
      * vm_compute. discriminate.
Defined.

Lemma demo_dir_wf : wf_dir demo_dir.
Proof.
  split.
  - apply (bool_decide_unpack (NoDup demo_dir.*1)). vm_compute. exact I.
  - apply (bool_decide_unpack (Forall (λ n, Py.has_char "/" n = false) demo_dir.*1)).
    vm_compute. exact I.
Defined.

Lemma demo_dir_js_readable : js_readable demo_dir.
Proof.
  apply (bool_decide_unpack (Forall (λ e : string * Node, is_file e.2 = true)
                                    (js_entries demo_dir))).
  vm_compute. exact I.
Defined.
Lemma index_js_require_lines_witness :
  let r := generate_index_js "." (demo_world ∅) in
  r.1 = Ret tt
  ∧ js_modules demo_dir = [("b_pb", ["Baz"; "Bar"]); ("a_pb", ["Foo"; "Bar"; "Foo"])]
  ∧ ∃ rest, dir_text "index.js" (pkg r.2) =
      ("const { Bar, Baz } = require('./b_pb');" +:+ Py.nl
       +:+ "const { Bar, Foo } = require('./a_pb');" +:+ Py.nl) +:+ rest.
Proof.
  destruct (index_js_require_lines "." (demo_world ∅))
    as (Hret & [rest Htext] & _).
  - exact demo_dir_wf.
  - exact demo_dir_js_readable.
  - discriminate.
  - intros r. split; [exact Hret|]. split; [reflexivity|].
    exists rest. exact Htext.
Defined.

Lemma index_js_export_list_witness :
  let r := generate_index_js "." (demo_world ∅) in
  r.1 = Ret tt
  ∧ all_symbols (js_modules demo_dir) = ["Baz"; "Bar"; "Foo"; "Bar"; "Foo"]
  ∧ dir_text "index.js" (pkg r.2) =
      text_of (require_section (js_modules demo_dir)) +:+ Py.nl
      +:+ "module.exports = {" +:+ Py.nl
      +:+ "  Baz, Bar, Foo" +:+ Py.nl
      +:+ "};" +:+ Py.nl.
Proof.
  destruct (index_js_export_list "." (demo_world ∅)) as (Hret & Htext & _).
  - exact demo_dir_wf.
  - exact demo_dir_js_readable.
  - discriminate.
  - intros r. split; [exact Hret|]. split; [reflexivity|]. exact Htext.
Defined.

(** C2 as it is stated does not hold: the directory of the concrete build
    enumerates [b_pb.js] before [a_pb.js], and the export list follows that
    order, not the order of the file names. *)
Lemma index_js_exports_not_in_filename_order :
  let r := generate_index_js "." (demo_world ∅) in
  exports_in_filename_order demo_dir = ["Foo"; "Bar"; "Baz"]
  ∧ dir_text "index.js" (pkg r.2) =
      text_of (require_section (js_modules demo_dir)) +:+ Py.nl
      +:+ "module.exports = {" +:+ Py.nl
      +:+ "  " +:+ Py.join ", " ["Baz"; "Bar"; "Foo"] +:+ Py.nl
      +:+ "};" +:+ Py.nl
  ∧ dir_text "index.js" (pkg r.2) ≠
      text_of (require_section (js_modules demo_dir)) +:+ Py.nl
      +:+ "module.exports = {" +:+ Py.nl
      +:+ "  " +:+ Py.join ", " (exports_in_filename_order demo_dir) +:+ Py.nl
      +:+ "};" +:+ Py.nl.
Proof.
  intros r. split; [by vm_compute|]. split; [by vm_compute|].
  vm_compute. discriminate.
Qed.

Lemma aggregators_deterministic_witness :
  let w1 := demo_world ∅ in
  let w2 := (generate_index_js "." (generate_init good_host "." w1).2).2 in
  (pkg w2).*1 = (pkg w1).*1 ++ ["__init__.py"; "__pycache__"; "index.js"]
  ∧ dir_text "__init__.py" (pkg (generate_init good_host "." w1).2)
    = dir_text "__init__.py" (pkg (generate_init good_host "." w2).2)
  ∧ dir_text "index.js" (pkg (generate_index_js "." w1).2)
    = dir_text "index.js" (pkg (generate_index_js "." w2).2).
Proof.
  intros w1 w2.
  destruct (aggregators_deterministic good_host "." w1 w2)
    as (_ & Hinit & _ & Hindex).
  - vm_compute. reflexivity.
  - vm_compute. reflexivity.
  - vm_compute. reflexivity.
  - vm_compute. discriminate.
  - vm_compute. discriminate.
  - vm_compute. discriminate.
  - vm_compute. discriminate.
  - split; [vm_compute; reflexivity|]. split; [exact Hinit|].
    apply Hindex. vm_compute. reflexivity.
Defined.

Lemma generate_init_restores_sys_path_witness :
  let r := generate_init good_host "." (demo_world ∅) in
  sys_path (demo_world ∅) = ["/usr/lib/python3"]
  ∧ sys_path r.2 = ["/usr/lib/python3"]
  ∧ (r.1 = Ret tt ∨ r.1 = Exit 1).
Proof.
  intros r. split; [reflexivity|].
  destruct (generate_init_restores_sys_path good_host "." (demo_world ∅))
    as (_ & _ & _ & H).
  apply H. intros p n [[t|]|]; reflexivity.
Defined.

(** C10 as it is stated does not hold: on a host whose generated modules
    put a directory at the front of [sys.path] when they are imported, the
    entry the stage removes is that directory; the output directory stays
    on [sys.path], which is not the one before the stage. *)
Lemma generate_init_leaves_output_dir_on_sys_path :
  let w := demo_world ∅ in
  let r := generate_init plugin_host "." w in
  r.1 = Ret tt
  ∧ sys_path w = ["/usr/lib/python3"]
  ∧ sys_path r.2 = ["/plugins"; "."; "/usr/lib/python3"]
  ∧ sys_path r.2 ≠ sys_path w.
Proof.
  intros w r. split; [by vm_compute|]. split; [by vm_compute|].
  split; [by vm_compute|]. vm_compute. discriminate.
Qed.
(** * Further properties of the script *)

(** ** Auxiliary facts *)

Section SymbolFacts.

Lemma has_char_app (c : ascii) (s t : string) :
  Py.has_char c (s +:+ t) = Py.has_char c s || Py.has_char c t.
Proof.
  induction s as [|a s IH]; [done|]. rewrite PyFacts.app_cons. simpl.
  rewrite IH. by destruct (Ascii.eqb a c).
Qed.

(** A piece of [s.split(c)] holds no [c], and no character that [s] does
    not hold. *)
Lemma split_piece_chars (c a : ascii) (s x : string) :
  x ∈ Py.split c s → Py.has_char a x = true →
  a ≠ c ∧ Py.has_char a s = true.
Proof.
  revert x. induction s as [|b s IH]; intros x Hx Ha.
  - apply list_elem_of_singleton in Hx as ->. done.
  - simpl in Hx. destruct (Ascii.eqb b c) eqn:E.
    + apply elem_of_cons in Hx as [->|Hx]; [done|].
      destruct (IH x Hx Ha) as [? Hs]. split; [done|]. simpl. rewrite Hs.
      by destruct (Ascii.eqb b a).
    + pose proof (PyFacts.split_nonempty c s) as Hne.
      destruct (Py.split c s) as [|h t] eqn:Hsp; [done|].
      apply elem_of_cons in Hx as [->|Hx].
      * simpl in Ha. destruct (Ascii.eqb b a) eqn:E'.
        -- apply Ascii.eqb_eq in E' as ->. split; [|simpl; by rewrite Ascii.eqb_refl].
           intros ->. by rewrite Ascii.eqb_refl in E.
        -- simpl in Ha. destruct (IH h) as [? Hs]; [by left|done|].
           split; [done|]. simpl. by rewrite Hs, orb_true_r.
      * destruct (IH x) as [? Hs]; [by right|done|].
        split; [done|]. simpl. by rewrite Hs, orb_true_r.
Qed.

Lemma split_piece_no_sep (c : ascii) (s x : string) :
  x ∈ Py.split c s → Py.has_char c x = false.
Proof.
  intros Hx. destruct (Py.has_char c x) eqn:E; [|done].
  by destruct (split_piece_chars c c s x Hx E).
Qed.

End SymbolFacts.

Section AggregatorFacts.

Variable host : Host.

Lemma index_not_js_module : is_js_module "index.js" = false.
Proof. reflexivity. Qed.

Lemma js_entries_put_index (t : string) (d : Dir) :
  js_entries (dir_put "index.js" t d) = js_entries d.
Proof. unfold js_entries. by rewrite (filter_dir_put is_js_module). Qed.

Lemma js_names_put_index (t : string) (d : Dir) :
  js_names (dir_put "index.js" t d) = js_names d.
Proof. by rewrite !js_names_entries, js_entries_put_index. Qed.

Lemma js_names_all (d : Dir) : Forall (λ n, is_js_module n = true) (js_names d).
Proof.
  unfold js_names. apply Forall_forall. intros n Hn.
  apply list_elem_of_filter in Hn as [Hn _]. by destruct (is_js_module n).
Qed.

Lemma js_scan_put_index (output_dir t : string) (d : Dir) :
  mapM (js_module output_dir (dir_put "index.js" t d)) (js_names (dir_put "index.js" t d))
  = mapM (js_module output_dir d) (js_names d).
Proof.
  rewrite js_names_put_index.
  rewrite (js_module_js_entries output_dir (dir_put "index.js" t d)) by apply js_names_all.
  rewrite (js_module_js_entries output_dir d) by apply js_names_all.
  by rewrite js_entries_put_index.
Qed.

Lemma all_symbols_nil (mods : list (string * list string)) :
  all_symbols mods = [] → filter (λ m, m.2 ≠ []) mods = [].
Proof.
  induction mods as [|[mn syms] mods IH]; [done|]. unfold all_symbols. simpl.
  intros [-> H]%app_eq_nil. rewrite filter_cons_False by (simpl; auto).
  by apply IH.
Qed.

Lemma NoDup_fst_filter {A B} (P : A * B → Prop) `{!∀ x, Decision (P x)}
    (l : list (A * B)) :
  NoDup l.*1 → NoDup (filter P l).*1.
Proof.
  intros Hnd. apply (sublist_NoDup _ l.*1);
    first [exact Hnd | apply fmap_sublist, sublist_filter].
Qed.

Lemma StronglySorted_filter {A} (R : relation A) (P : A → Prop)
    `{!∀ x, Decision (P x)} (l : list A) :
  StronglySorted R l → StronglySorted R (filter P l).
Proof.
  induction 1 as [|x l Hl IH Hx]; [constructor|].
  rewrite filter_cons. destruct (decide (P x)); [|done].
  constructor; [done|]. apply Forall_forall. intros y [_ Hy]%list_elem_of_filter.
  by eapply Forall_forall in Hx.
Qed.

(** The names of [classes] stand in ascending order, none twice: they come
    from [inspect.getmembers], which sorts the members by name. *)
Lemma class_names_sorted (m : PyModule) :
  Sorted String.le (class_names m) ∧ NoDup (class_names m).
Proof.
  unfold class_names, getmembers.
  set (R := λ a b : string * PyObj, String.le a.1 b.1).
  assert (Total R) as HT by (intros a b; apply (total String.le)).
  assert (Transitive R) as HR by (intros a b c; apply (transitivity (R:=String.le))).
  split.
  - apply StronglySorted_Sorted.
    apply (StronglySorted_fmap fst R String.le); [done|].
    apply StronglySorted_filter, Sorted_StronglySorted; [done|].
    by apply Sorted_merge_sort.
  - apply NoDup_fst_filter. rewrite merge_sort_Permutation.
    apply NoDup_fst_filter, NoDup_fst_map_to_list.
Qed.

(** The import lines of the pairs of a list of imports, import by
    import. *)
Lemma module_lines_pairs (l : list (string * Imported)) :
  import_lines (l ≫= loaded_pairs) = l ≫= module_lines.
Proof.
  induction l as [|x l IH]; [done|]. rewrite !bind_cons. unfold import_lines in *.
  rewrite fmap_app, IH. f_equal. unfold loaded_pairs, module_lines.
  destruct (imp_module x.2); [|done]. by rewrite <- list_fmap_compose.
Qed.




End AggregatorFacts.

Section FrameFacts.

Variable host : Host.

(** The Python loop, whatever the commands do: it leaves the working
    directory alone, it exits with status 1 only, and the commands it has
    run are those of the first [n] files, with [n] positive when there is a
    file. *)
Lemma compile_each_frame (protoc output_dir : string) (files cmd : list string)
    (w : World) :
  let r := compile_each host protoc output_dir files cmd w in
  cwd r.2 = cwd w
  ∧ (∀ c, r.1 = Exit c → c = 1)
  ∧ ∃ n, spawned r.2 = spawned w ++ (python_cmd protoc output_dir <$> take n files)
      ∧ (n = 0%nat → files = [])
      ∧ ∀ v, r.1 = Ret v → v = cmd ++ files ∧ take n files = files.
Proof.
  revert cmd w. induction files as [|f files IH]; intros cmd w r; unfold r; clear r.
  - cbn [compile_each]. rewrite ret_eval. simpl. split; [done|].
    split; [done|]. exists 0%nat. rewrite !app_nil_r. split; [done|]. split; [done|].
    by intros v [= <-].
  - simpl compile_each. rewrite bind_eval. unfold try_except.
    rewrite subprocess_run_eval.
    destruct (exec host _ (cwd w) (pkg w)) as [[rc d]|].
    + destruct (rc =? 0).
      * specialize (IH (cmd ++ [f])
                      (set_pkg d (add_spawned (python_cmd protoc output_dir f) w))).
        cbv zeta in IH. destruct IH as (Hc & He & n & Hsp & _ & Hret).
        split; [done|]. split; [done|].
        exists (S n). rewrite Hsp. simpl. rewrite <- !(assoc_L (++)).
        split; [done|]. split; [done|].
        intros v Hv. destruct (Hret v Hv) as [-> ->]. by rewrite <- (assoc_L (++)).
      * simpl. split; [done|]. split; [by intros c [= <-]|].
        exists 1%nat. simpl. by rewrite take_0.
    + simpl. split; [done|]. split; [done|].
      exists 1%nat. simpl. by rewrite take_0.
Qed.




(** The stub generator, path by path. *)
Lemma generate_stubs_eval (output_dir : string) (w : World) :
  generate_stubs host output_dir w =
  match which host "stubgen" with
  | None => (Exit 1, w)
  | Some stubgen =>
      match chdir_target host (cwd w) output_dir with
      | None => (Raise OtherException, w)
      | Some c' =>
          let w1 := add_spawned (stubgen_cmd stubgen) (set_cwd c' w) in
          match exec host (stubgen_cmd stubgen) c' (pkg w) with
          | None => (Raise OtherException, w1)
          | Some (rc, d) =>
              if rc =? 0 then
                match chdir_target host c' (cwd w) with
                | Some c'' => (Ret tt, set_cwd c'' (set_pkg d w1))
                | None => (Raise OtherException, set_pkg d w1)
                end
              else (Exit 1, set_pkg d w1)
          end
      end
  end.
Proof.
  unfold generate_stubs. destruct (which host "stubgen") as [stubgen|]; [|done].
  rewrite bind_eval. unfold getcwd at 1. rewrite bind_eval. unfold chdir at 1.
  destruct (chdir_target host (cwd w) output_dir) as [c'|]; [|done].
  rewrite bind_eval. unfold try_except. rewrite subprocess_run_eval.
  cbn [cwd pkg set_cwd].
  destruct (exec host _ c' (pkg w)) as [[rc d]|]; [|done].
  destruct (rc =? 0); [|done]. unfold chdir. cbn [cwd set_pkg add_spawned set_cwd].
  by destruct (chdir_target host c' (cwd w)).
Qed.


(** The Python loop when the command of one file cannot be started. *)
Lemma compile_each_not_started (protoc output_dir : string) (l1 l2 cmd : list string)
    (f : string) (w : World) (d1 : Dir) :
  run_all host (cwd w) (python_cmd protoc output_dir <$> l1) (pkg w) = Some d1 →
  exec host (python_cmd protoc output_dir f) (cwd w) d1 = None →
  compile_each host protoc output_dir (l1 ++ f :: l2) cmd w =
  (Raise OtherException,
   mkWorld (environ w) (cwd w) (sys_path w) d1 (stderr w)
           (spawned w ++ (python_cmd protoc output_dir <$> l1)
                      ++ [python_cmd protoc output_dir f])).
Proof.
  revert cmd w. induction l1 as [|g l1 IH]; intros cmd w Hrun Hf.
  - simpl in *. injection Hrun as <-. rewrite bind_eval. unfold try_except.
    by rewrite subprocess_run_eval, Hf.
  - simpl in Hrun. simpl compile_each. rewrite bind_eval. unfold try_except.
    rewrite subprocess_run_eval.
    destruct (exec host _ (cwd w) (pkg w)) as [[rc' d]|]; [|done].
    destruct (rc' =? 0) eqn:Hrc'; [|done].
    rewrite (IH _ (set_pkg d (add_spawned (python_cmd protoc output_dir g) w)) Hrun Hf).
    simpl. by rewrite <- !(assoc_L (++)).
Qed.


End FrameFacts.

(** ** The properties *)

Section Further.

Variable host : Host.

(** *** compile_protos *)

(** X1: when the compiler is found, the commands [compile_protos] runs are
    a beginning of its plan (the per-file Python commands in enumeration
    order, then the one JavaScript command), whatever the commands return;
    at least one command is run; and the stage returns only after the whole
    plan. *)
Theorem compile_protos_follows_plan (output_dir protoc : string) (w : World) :
  find_protoc host w = (Ret protoc, w) →
  let files := proto_files output_dir (pkg w) in
  let plan := (python_cmd protoc output_dir <$> files)
              ++ [js_cmd protoc output_dir files] in
  let r := compile_protos host output_dir w in
  ∃ ran, spawned r.2 = spawned w ++ ran
    ∧ ran `prefix_of` plan
    ∧ ran ≠ []
    ∧ (r.1 = Ret tt → ran = plan).
Proof.
  intros Hp files plan r. unfold r; clear r.
  rewrite (compile_protos_eval _ _ _ _ Hp), bind_eval. fold files.
  pose proof (compile_each_frame host protoc output_dir files
                [protoc; "--proto_path=."; "--js_out=import_style=commonjs,binary:" +:+ output_dir]
                w) as H.
  cbv zeta in H. destruct (compile_each _ _ _ _ _ w) as [[v|c|e] w1] eqn:E;
    destruct H as (_ & _ & n & Hsp & Hn & Hret); simpl in *.
  - destruct (Hret v eq_refl) as [-> Htake]. rewrite Htake in Hsp.
    exists plan. split; [|split; [done|split; [|done]]].
    + unfold try_except. rewrite subprocess_run_eval.
      destruct (exec host _ (cwd w1) (pkg w1)) as [[rc d]|]; [destruct (rc =? 0)|];
        simpl; rewrite Hsp; unfold plan; by rewrite <- (assoc_L (++)).
    + unfold plan. by destruct (python_cmd protoc output_dir <$> files).
  - assert (files ≠ []) as Hne by (intros Heq; by rewrite Heq in E).
    exists (python_cmd protoc output_dir <$> take n files).
    split; [done|]. split; [|split; [|done]].
    + exists ((python_cmd protoc output_dir <$> drop n files)
              ++ [js_cmd protoc output_dir files]).
      unfold plan. by rewrite (assoc_L (++)), <- fmap_app, take_drop.
    + destruct n as [|n]; [by specialize (Hn eq_refl)|]. by destruct files.
  - assert (files ≠ []) as Hne by (intros Heq; by rewrite Heq in E).
    exists (python_cmd protoc output_dir <$> take n files).
    split; [done|]. split; [|split; [|done]].
    + exists ((python_cmd protoc output_dir <$> drop n files)
              ++ [js_cmd protoc output_dir files]).
      unfold plan. by rewrite (assoc_L (++)), <- fmap_app, take_drop.
    + destruct n as [|n]; [by specialize (Hn eq_refl)|]. by destruct files.
Qed.

(** X2: a per-file command that cannot be started ([subprocess.run] raises
    an [OSError], which is no [CalledProcessError]) is not handled: after
    the commands before it returned 0, [compile_protos] ends with the
    exception uncaught instead of calling [sys.exit], no later command is
    run and the package directory is the one the earlier commands left. *)
Theorem compile_protos_command_not_started (output_dir protoc f : string)
    (l1 l2 : list string) (d1 : Dir) (w : World) :
  find_protoc host w = (Ret protoc, w) →
  proto_files output_dir (pkg w) = l1 ++ f :: l2 →
  run_all host (cwd w) (python_cmd protoc output_dir <$> l1) (pkg w) = Some d1 →
  exec host (python_cmd protoc output_dir f) (cwd w) d1 = None →
  let r := compile_protos host output_dir w in
  r.1 = Raise OtherException
  ∧ exit_status r.1 = 1
  ∧ spawned r.2 = spawned w ++ (python_cmd protoc output_dir <$> l1)
                            ++ [python_cmd protoc output_dir f]
  ∧ pkg r.2 = d1.
Proof.
  intros Hp Hfiles Hrun Hf r. unfold r; clear r.
  rewrite (compile_protos_eval _ _ _ _ Hp), bind_eval, Hfiles.
  by rewrite (compile_each_not_started _ _ _ _ _ _ _ _ _ Hrun Hf).
Qed.

(** X3: when the package directory holds no schema file, [compile_protos]
    runs no Python command but still runs the compiler once, for
    JavaScript, with no input file; the outcome of the stage is that of
    this one command. *)
Theorem compile_protos_no_schema_file (output_dir protoc : string) (w : World) :
  find_protoc host w = (Ret protoc, w) →
  proto_files output_dir (pkg w) = [] →
  let cmd := [protoc; "--proto_path=.";
              "--js_out=import_style=commonjs,binary:" +:+ output_dir] in
  let r := compile_protos host output_dir w in
  spawned r.2 = spawned w ++ [cmd]
  ∧ r.1 = match exec host cmd (cwd w) (pkg w) with
          | Some (rc, _) => if rc =? 0 then Ret tt else Exit 1
          | None => Raise OtherException
          end.
Proof.
  intros Hp Hfiles cmd r. unfold r; clear r.
  rewrite (compile_protos_eval _ _ _ _ Hp), bind_eval, Hfiles.
  cbn [compile_each]. rewrite ret_eval. unfold try_except.
  rewrite subprocess_run_eval. fold cmd.
  destruct (exec host cmd (cwd w) (pkg w)) as [[rc d]|]; [|done].
  by destruct (rc =? 0).
Qed.

(** *** generate_init *)

(** X4: when [__init__.py] can be opened and every generated module loads,
    the aggregator is the import lines of the modules one module after the
    other, the modules in the order in which the directory lists them; the
    lines of one module name its classes in ascending order of their names,
    no class twice. *)
Theorem generate_init_line_order (output_dir : string) (w : World) :
  let path := output_dir :: sys_path w in
  let loads := init_loads host path (pkg w) (pkg w).*1 in
  dir_lookup "__init__.py" (pkg w) ≠ Some Folder →
  Forall (λ x, is_Some (imp_module x.2)) loads →
  dir_text "__init__.py" (pkg (generate_init host output_dir w).2)
  = text_of (loads ≫= module_lines)
  ∧ loads.*1 = filter (λ n, is_py_module n) (pkg w).*1
  ∧ ∀ m, Sorted String.le (class_names m) ∧ NoDup (class_names m).
Proof.
  intros path loads Hf Hall. split; [|split; [|apply class_names_sorted]].
  - rewrite (generate_init_eval _ _ _ Hf). cbv zeta. fold path loads.
    cbn [snd pkg]. by rewrite with_cache_text, module_lines_pairs.
  - apply init_loads_names. by apply all_loaded_Forall.
Qed.

(** X6: when the package directory lists no name with the suffix
    [_pb2.py], [generate_init] loads nothing, returns, and leaves an empty
    [__init__.py], whatever the file held before. *)
Theorem generate_init_no_module (output_dir : string) (w : World) :
  dir_lookup "__init__.py" (pkg w) ≠ Some Folder →
  Forall (λ n, is_py_module n = false) (pkg w).*1 →
  generate_init host output_dir w
  = (Ret tt, set_pkg (dir_put "__init__.py" "" (pkg w)) w).
Proof.
  intros Hf Hnone. rewrite (generate_init_eval _ _ _ Hf). cbv zeta.
  rewrite (init_loads_none host _ _ _ Hnone). unfold with_cache, stderr_of. simpl.
  rewrite app_nil_r. by destruct w.
Qed.


(** *** generate_index_js *)

(** X8: on every line that starts with the export prefix the extraction
    [line.split("'")[1].split(".")[-1]] returns: neither index is out of
    range.  The name it gives holds no dot and no quote. *)
Theorem class_name_of_never_fails (line : string) (w : World) :
  Py.startswith line export_prefix = true →
  ∃ name, class_name_of line w = (Ret name, w)
    ∧ Py.has_char "." name = false ∧ Py.has_char "'" name = false.
Proof.
  intros Hp. exists (symbol_of line). split; [by apply class_name_of_eval|].
  unfold symbol_of.
  destruct (Py.split "'" line !! 1%nat) as [q|] eqn:Hq; [|done]. simpl.
  apply list_elem_of_lookup_2 in Hq.
  unfold Py.last_item. destruct (last (Py.split "." q)) as [x|] eqn:Hx; [|done].
  simpl. apply last_Some_elem_of in Hx. split.
  - by eapply split_piece_no_sep.
  - destruct (Py.has_char "'" x) eqn:E; [|done].
    destruct (split_piece_chars _ _ _ _ Hx E) as [_ E'].
    by rewrite (split_piece_no_sep _ _ _ Hq) in E'.
Qed.

(** X9: the name extracted from an export line is the last dotted component
    of the qualified name between the quotes: [Foo] for
    [proto.mlens.v1.Foo], and [Inner] for the nested [proto.mlens.v1.Outer.Inner]. *)
Theorem class_name_of_last_component (scope name rest : string) (w : World) :
  Py.has_char "'" scope = false →
  Py.has_char "'" name = false →
  Py.has_char "." name = false →
  class_name_of (export_prefix +:+ name +:+ "'" +:+ rest) w = (Ret name, w)
  ∧ class_name_of (export_prefix +:+ scope +:+ "." +:+ name +:+ "'" +:+ rest) w
    = (Ret name, w).
Proof.
  intros Hs Hn Hd.
  assert (∀ body, Py.has_char "'" body = false →
            Py.last_item (Py.split "." ("proto.mlens.v1." +:+ body)) = Some name →
            class_name_of (export_prefix +:+ body +:+ "'" +:+ rest) w = (Ret name, w)) as H.
  { intros body Hb Hl. unfold class_name_of.
    change (export_prefix +:+ body +:+ "'" +:+ rest)
      with ("goog.exportSymbol(" +:+ String "'" ("proto.mlens.v1." +:+ (body +:+ String "'" rest))).
    rewrite PyFacts.split_app_sep.
    rewrite (PyFacts.split_no_sep "'" "goog.exportSymbol(") by done.
    rewrite (PyFacts.app_assoc "proto.mlens.v1." body), PyFacts.split_app_sep.
    rewrite (PyFacts.split_no_sep "'" ("proto.mlens.v1." +:+ body))
      by (by rewrite has_char_app, Hb).
    rewrite bind_eval. cbn -[String.append Py.split Py.last_item].
    by rewrite Hl. }
  split.
  - apply H; [done|].
    change ("proto.mlens.v1." +:+ name) with ("proto.mlens.v1" +:+ String "." name).
    by apply PyFacts.last_split_app_sep.
  - rewrite (PyFacts.app_assoc "." name), (PyFacts.app_assoc scope).
    apply (H (scope +:+ "." +:+ name)).
    + by rewrite !has_char_app, Hs, Hn.
    + change ("." +:+ name) with (String "." name).
      rewrite (PyFacts.app_assoc "proto.mlens.v1." scope).
      by apply PyFacts.last_split_app_sep.
Qed.


(** X11: when no generated JavaScript module holds an export line of the
    namespace (in particular when there is no such module), the stage still
    returns and [index.js] is an export block without a name: an empty line,
    the opening line, a line of two spaces and the closing line. *)
Theorem generate_index_js_no_symbol (output_dir : string) (w : World) :
  wf_dir (pkg w) → js_readable (pkg w) →
  dir_lookup "index.js" (pkg w) ≠ Some Folder →
  all_symbols (js_modules (pkg w)) = [] →
  let r := generate_index_js output_dir w in
  r.1 = Ret tt
  ∧ dir_text "index.js" (pkg r.2) =
      Py.nl +:+ "module.exports = {" +:+ Py.nl +:+ "  " +:+ Py.nl +:+ "};" +:+ Py.nl.
Proof.
  intros Hwf Hread Hidx Hnone r. unfold r.
  rewrite (generate_index_js_wf _ _ Hwf Hread Hidx). simpl. split; [done|].
  rewrite dir_text_put_eq. unfold require_section.
  by rewrite Hnone, (all_symbols_nil _ Hnone).
Qed.

(** X12: [generate_index_js] run again on the state it left ends the same way
    and leaves the same state: [index.js] is no module of the pattern
    [*_pb.js], so the aggregator is never read back. *)
Theorem generate_index_js_idempotent (output_dir : string) (w : World) :
  generate_index_js output_dir (generate_index_js output_dir w).2
  = generate_index_js output_dir w.
Proof.
  rewrite (generate_index_js_eval output_dir w).
  destruct (mapM _ (js_names (pkg w))) as [mods|] eqn:Hm;
    [|cbn [snd]; by rewrite generate_index_js_eval, Hm].
  destruct (dir_lookup "index.js" (pkg w)) as [[t|]|] eqn:Hl.
  2: cbn [snd]; by rewrite generate_index_js_eval, Hm, Hl.
  all: cbn [snd]; rewrite generate_index_js_eval; cbn [pkg set_pkg];
    rewrite js_scan_put_index, Hm, dir_lookup_put_eq, dir_put_put; done.
Qed.

(** *** generate_stubs and main *)

(** X13: [generate_stubs] returns only when the stub tool was found, the
    output root could be entered, the tool was run there, once, with the
    arguments [-o . --no-import -m mlens_proto], returned 0, and the
    directory saved at the start could be entered again. *)
Theorem generate_stubs_returns (output_dir : string) (w : World) :
  let r := generate_stubs host output_dir w in
  r.1 = Ret tt →
  ∃ stubgen c' d,
    which host "stubgen" = Some stubgen
    ∧ chdir_target host (cwd w) output_dir = Some c'
    ∧ exec host [stubgen; "-o"; "."; "--no-import"; "-m"; "mlens_proto"] c' (pkg w)
      = Some (0, d)
    ∧ chdir_target host c' (cwd w) = Some (cwd r.2)
    ∧ spawned r.2 = spawned w ++ [[stubgen; "-o"; "."; "--no-import"; "-m"; "mlens_proto"]]
    ∧ pkg r.2 = d.
Proof.
  intros r. unfold r; clear r. rewrite generate_stubs_eval.
  destruct (which host "stubgen") as [stubgen|]; [|done].
  destruct (chdir_target host (cwd w) output_dir) as [c'|]; [|done]. cbv zeta.
  destruct (exec host _ c' (pkg w)) as [[rc d]|] eqn:He; [|done].
  destruct (rc =? 0) eqn:Hrc; [|done]. apply Z.eqb_eq in Hrc as ->.
  destruct (chdir_target host c' (cwd w)) as [c''|] eqn:Hb; [|done].
  intros _. exists stubgen, c', d. split_and!; [done|done|exact He|exact Hb|done..].
Qed.



End Further.

(** ** The further properties at work on the concrete builds *)

Lemma compile_protos_follows_plan_witness :
  let host := demo_host true rejects_a (λ _, true) in
  ∃ ran, spawned (compile_protos host "." (demo_world ∅)).2 = ran
    ∧ ran `prefix_of`
        [python_cmd "/usr/bin/protoc" "." "./mlens_proto/b.proto";
         python_cmd "/usr/bin/protoc" "." "./mlens_proto/a.proto";
         js_cmd "/usr/bin/protoc" "." ["./mlens_proto/b.proto"; "./mlens_proto/a.proto"]]
    ∧ ran ≠ [].
Proof.
  intros host.
  destruct (compile_protos_follows_plan host "." "/usr/bin/protoc" (demo_world ∅))
    as (ran & H1 & H2 & H3 & _); [reflexivity|].
  exists ran. split; [exact H1|]. split; [exact H2|exact H3].
Defined.

Lemma compile_protos_command_not_started_witness :
  let r := compile_protos no_exec_host "." (demo_world ∅) in
  r.1 = Raise OtherException
  ∧ spawned r.2 = [python_cmd "/usr/bin/protoc" "." "./mlens_proto/b.proto"]
  ∧ pkg r.2 = demo_dir.
Proof.
  destruct (compile_protos_command_not_started no_exec_host "." "/usr/bin/protoc"
              "./mlens_proto/b.proto" [] ["./mlens_proto/a.proto"] demo_dir
              (demo_world ∅)) as (H1 & _ & H3 & H4); [reflexivity..|].
  intros r. split; [exact H1|]. split; [exact H3|exact H4].
Defined.

Lemma compile_protos_no_schema_file_witness :
  let r := compile_protos good_host "." plain_world in
  spawned r.2 = [["/usr/bin/protoc"; "--proto_path=.";
                  "--js_out=import_style=commonjs,binary:."]]
  ∧ r.1 = Ret tt.
Proof.
  destruct (compile_protos_no_schema_file good_host "." "/usr/bin/protoc" plain_world)
    as (H1 & H2); [reflexivity..|].
  intros r. split; [exact H1|exact H2].
Defined.

Lemma generate_init_line_order_witness :
  dir_text "__init__.py" (pkg (generate_init good_host "." (demo_world ∅)).2)
  = "from .b_pb2 import Foo" +:+ Py.nl +:+ "from .a_pb2 import Foo" +:+ Py.nl.
Proof.
  destruct (generate_init_line_order good_host "." (demo_world ∅)) as (H & _).
  - discriminate.
  - repeat constructor; vm_compute; eauto.
  - rewrite H. vm_compute. reflexivity.
Defined.

Lemma generate_init_no_module_witness :
  dir_text "__init__.py" (pkg plain_world) = "from .old_pb2 import Old"
  ∧ generate_init good_host "." plain_world
    = (Ret tt,
       set_pkg [("util_pb.js", File ("goog.provide('util');" +:+ Py.nl));
                ("__init__.py", File "")] plain_world).
Proof.
  split; [reflexivity|].
  apply (generate_init_no_module good_host "." plain_world).
  - discriminate.
  - repeat constructor.
Defined.


Lemma class_name_of_never_fails_witness :
  ∃ name,
    class_name_of "goog.exportSymbol('proto.mlens.v1.Foo', null, global);" plain_world
    = (Ret name, plain_world)
    ∧ Py.has_char "." name = false ∧ Py.has_char "'" name = false.
Proof.
  apply (class_name_of_never_fails
           "goog.exportSymbol('proto.mlens.v1.Foo', null, global);" plain_world).
  reflexivity.
Defined.

Lemma class_name_of_last_component_witness :
  class_name_of "goog.exportSymbol('proto.mlens.v1.Inner', null, global);" plain_world
  = (Ret "Inner", plain_world)
  ∧ class_name_of "goog.exportSymbol('proto.mlens.v1.Outer.Inner', null, global);"
                  plain_world
    = (Ret "Inner", plain_world).
Proof.
  apply (class_name_of_last_component "Outer" "Inner" ", null, global);" plain_world);
    reflexivity.
Defined.

Lemma generate_index_js_no_symbol_witness :
  let r := generate_index_js "." plain_world in
  r.1 = Ret tt
  ∧ dir_text "index.js" (pkg r.2) =
      Py.nl +:+ "module.exports = {" +:+ Py.nl +:+ "  " +:+ Py.nl +:+ "};" +:+ Py.nl.
Proof.
  apply (generate_index_js_no_symbol "." plain_world).
  - split.
    + apply (bool_decide_unpack (NoDup plain_dir.*1)). vm_compute. exact I.
    + apply (bool_decide_unpack (Forall (λ n, Py.has_char "/" n = false) plain_dir.*1)).
      vm_compute. exact I.
  - apply (bool_decide_unpack (Forall (λ e : string * Node, is_file e.2 = true)
                                      (js_entries plain_dir))).
    vm_compute. exact I.
  - discriminate.
  - reflexivity.
Defined.

Lemma generate_stubs_returns_witness :
  (generate_stubs good_host "out" (demo_world ∅)).1 = Ret tt
  ∧ ∃ stubgen c' d,
      which good_host "stubgen" = Some stubgen
      ∧ chdir_target good_host "/repo" "out" = Some c'
      ∧ exec good_host [stubgen; "-o"; "."; "--no-import"; "-m"; "mlens_proto"] c' demo_dir
        = Some (0, d)
      ∧ chdir_target good_host c' "/repo"
        = Some (cwd (generate_stubs good_host "out" (demo_world ∅)).2)
      ∧ spawned (generate_stubs good_host "out" (demo_world ∅)).2
        = [[stubgen; "-o"; "."; "--no-import"; "-m"; "mlens_proto"]]
      ∧ pkg (generate_stubs good_host "out" (demo_world ∅)).2 = d.
Proof.
  split; [reflexivity|].
  apply (generate_stubs_returns good_host "out" (demo_world ∅)). reflexivity.
Defined.

